(** * bored-api: the query builder and the query executor of [BoredApiWidget]

    A shallow embedding of [src/bored-api.py].  The Qt widget is a record of
    the texts of its line edits and of the items of its output layout; the
    three slots [query_random], [query_key] and [query_multi] and the helper
    [_query] are functions on that record, in a small monad that carries the
    widget, a log of the calls made to [requests] and Python exceptions. *)

From Stdlib Require Import String Ascii List ZArith Lia Bool DecimalString.
Import ListNotations.
Open Scope string_scope.

Set Warnings "-register-all".
Set Default Proof Using "Type".

(* ================================================================== *)
(** ** Python strings *)

(** Truth value of a [str]: [if value:] holds for a non-empty string. *)
Definition str_truthy (s : string) : bool :=
  match s with
  | EmptyString => false
  | String _ _ => true
  end.

(** [s.startswith(p)]. *)
Fixpoint starts_with (p s : string) : bool :=
  match p, s with
  | EmptyString, _ => true
  | String _ _, EmptyString => false
  | String a p', String b s' => Ascii.eqb a b && starts_with p' s'
  end.

(** The last character of [s], if it has one: [s[-1]]. *)
Fixpoint last_char (s : string) : option ascii :=
  match s with
  | EmptyString => None
  | String c EmptyString => Some c
  | String _ r => last_char r
  end.

(** [t in s]: [t] occurs in [s] as a run of consecutive characters. *)
Definition contains (s t : string) : Prop :=
  exists a b, s = a ++ t ++ b.

(** The same test as a program, to evaluate it on concrete strings. *)
Fixpoint containsb (s t : string) : bool :=
  starts_with t s
  || match s with
     | EmptyString => false
     | String _ s' => containsb s' t
     end.

(** [c in s] for one character. *)
Fixpoint has_char (c : ascii) (s : string) : bool :=
  match s with
  | EmptyString => false
  | String a s' => Ascii.eqb a c || has_char c s'
  end.

Definition amp : ascii := "&"%char.
Definition equals_sign : ascii := "="%char.

(** [s.split("&")]: the fields a query string is made of, as a server reads
    them.  A string that ends in the separator has an empty last field. *)
Fixpoint fields (s : string) : list string :=
  match s with
  | EmptyString => [EmptyString]
  | String c r =>
      if Ascii.eqb c amp then EmptyString :: fields r
      else match fields r with
           | f :: fs => String c f :: fs
           | [] => [String c EmptyString]
           end
  end.

(** [str(n)] for an [int]. *)
Definition int_str (n : Z) : string := NilZero.string_of_int (Z.to_int n).

(* ================================================================== *)
(** ** Python dictionaries with [str] keys

    A [dict] keeps its keys in insertion order, and the builder's loop walks
    one in that order, so a dictionary is an association list. *)

Definition dict (V : Type) : Type := list (string * V).

Fixpoint dict_get {V : Type} (d : dict V) (k : string) : option V :=
  match d with
  | [] => None
  | (k', v) :: d' => if String.eqb k' k then Some v else dict_get d' k
  end.

(** [d[k] = v]: replaces in place, or appends a new key at the end. *)
Fixpoint dict_set {V : Type} (d : dict V) (k : string) (v : V) : dict V :=
  match d with
  | [] => [(k, v)]
  | (k', v') :: d' =>
      if String.eqb k' k then (k', v) :: d' else (k', v') :: dict_set d' k v
  end.

Definition dict_keys {V : Type} (d : dict V) : list string := map fst d.

(* ================================================================== *)
(** ** Exceptions and the pure error monad *)

Inductive exn : Type :=
| KeyError (k : string)
| AttributeError (attr : string)
| JSONDecodeError
| RequestException.

(** A computation that returns or raises. *)
Definition Err (A : Type) : Type := (exn + A)%type.

Definition err_ret {A : Type} (a : A) : Err A := inr a.

Definition err_bind {A B : Type} (m : Err A) (k : A -> Err B) : Err B :=
  match m with
  | inl e => inl e
  | inr a => k a
  end.

(** [d[k]], which raises [KeyError] on a missing key. *)
Definition dict_item {V : Type} (d : dict V) (k : string) : Err V :=
  match dict_get d k with
  | Some v => inr v
  | None => inl (KeyError k)
  end.

(** [for x in xs: acc = body(acc, x)], stopping at the first exception. *)
Fixpoint err_for {A X : Type} (xs : list X) (body : A -> X -> Err A) (acc : A)
  : Err A :=
  match xs with
  | [] => err_ret acc
  | x :: xs' => err_bind (body acc x) (err_for xs' body)
  end.

(* ================================================================== *)
(** ** The widget *)

Definition BORED_API_URL : string := "http://bored.api.lewagon.com/api/activity/".

(** An item of a Qt layout: a widget (every widget the output layout receives
    is a [QLabel], given by its text) or a nested layout. *)
Inductive item : Type :=
| Widget (text : string)
| Layout (children : list item).

(** The part of [BoredApiWidget] the slots read and write.  A [QLineEdit] is
    the text it holds. *)
Record BoredApiWidget : Type := mkWidget {
  key_input_field : string;
  d_multi_input_fields : dict string;
  d_multi_input_min_fields : dict string;
  d_multi_input_max_fields : dict string;
  output_layout : list item
}.

Definition set_output (w : BoredApiWidget) (l : list item) : BoredApiWidget :=
  mkWidget (key_input_field w) (d_multi_input_fields w)
    (d_multi_input_min_fields w) (d_multi_input_max_fields w) l.

(** [_add_param_entry] on the three dictionaries: three fresh, empty line
    edits under [input_name], whatever [allow_range] is.  The rows it puts
    on the form, where [allow_range] matters, are in
    [_add_param_entry_with_rows]. *)
Definition _add_param_entry (input_name : string) (w : BoredApiWidget)
  : BoredApiWidget :=
  mkWidget (key_input_field w)
    (dict_set (d_multi_input_fields w) input_name "")
    (dict_set (d_multi_input_min_fields w) input_name "")
    (dict_set (d_multi_input_max_fields w) input_name "")
    (output_layout w).

(** [__init__], as far as the fields above go. *)
Definition __init__ : BoredApiWidget :=
  _add_param_entry "accessibility"
    (_add_param_entry "price"
       (_add_param_entry "participants"
          (_add_param_entry "type" (mkWidget "" [] [] [] [])))).

(** The names [__init__] registers, in its order. *)
Definition param_names : list string :=
  ["type"; "participants"; "price"; "accessibility"].

(** What the user does to the form: type into a line edit. *)
Definition type_key (v : string) (w : BoredApiWidget) : BoredApiWidget :=
  mkWidget v (d_multi_input_fields w) (d_multi_input_min_fields w)
    (d_multi_input_max_fields w) (output_layout w).

Definition type_exact (name v : string) (w : BoredApiWidget) : BoredApiWidget :=
  mkWidget (key_input_field w) (dict_set (d_multi_input_fields w) name v)
    (d_multi_input_min_fields w) (d_multi_input_max_fields w) (output_layout w).

Definition type_min (name v : string) (w : BoredApiWidget) : BoredApiWidget :=
  mkWidget (key_input_field w) (d_multi_input_fields w)
    (dict_set (d_multi_input_min_fields w) name v)
    (d_multi_input_max_fields w) (output_layout w).

Definition type_max (name v : string) (w : BoredApiWidget) : BoredApiWidget :=
  mkWidget (key_input_field w) (d_multi_input_fields w)
    (d_multi_input_min_fields w)
    (dict_set (d_multi_input_max_fields w) name v) (output_layout w).

(** The widgets the program can hold: the three dictionaries have the keys
    [__init__] gave them. *)
Definition well_formed (w : BoredApiWidget) : Prop :=
  dict_keys (d_multi_input_fields w) = param_names
  /\ dict_keys (d_multi_input_min_fields w) = param_names
  /\ dict_keys (d_multi_input_max_fields w) = param_names.

(* ================================================================== *)
(** ** The query builder of [query_multi] *)

(** One pass of the loop body of [query_multi]; [continue] is the early
    return of the new [query_tail]. *)
Definition query_multi_body (w : BoredApiWidget) (query_tail input_name : string)
  : Err string :=
  err_bind (dict_item (d_multi_input_fields w) input_name) (fun value =>
  if str_truthy value then
    err_ret (query_tail ++ input_name ++ "=" ++ value ++ "&")
  else
    err_bind (dict_item (d_multi_input_min_fields w) input_name) (fun min_value =>
    let query_tail :=
      if str_truthy min_value
      then query_tail ++ "min" ++ input_name ++ "=" ++ min_value ++ "&"
      else query_tail in
    err_bind (dict_item (d_multi_input_max_fields w) input_name) (fun max_value =>
    let query_tail :=
      if str_truthy max_value
      then query_tail ++ "max" ++ input_name ++ "=" ++ max_value ++ "&"
      else query_tail in
    err_ret query_tail))).

(** [query_tail] after the loop over the keys of [d_multi_input_fields]. *)
Definition query_multi_tail (w : BoredApiWidget) : Err string :=
  err_for (dict_keys (d_multi_input_fields w)) (query_multi_body w) "".

(** The argument [query_multi] passes to [_query]. *)
Definition query_multi_url (w : BoredApiWidget) : Err string :=
  err_bind (query_multi_tail w) (fun query_tail =>
  err_ret (BORED_API_URL ++ "?" ++ query_tail)).

(* ================================================================== *)
(** ** The builder, as the specification words it

    The text of a line edit by parameter name, the fields one parameter
    contributes, and the query string as the contributions in a row. *)

Definition text_of (d : dict string) (name : string) : string :=
  match dict_get d name with
  | Some v => v
  | None => ""
  end.

Definition exact_text (w : BoredApiWidget) := text_of (d_multi_input_fields w).
Definition min_text (w : BoredApiWidget) := text_of (d_multi_input_min_fields w).
Definition max_text (w : BoredApiWidget) := text_of (d_multi_input_max_fields w).

(** The fields of one parameter: the exact value alone when there is one,
    otherwise the minimum and the maximum that are there, in that order. *)
Definition param_fields (w : BoredApiWidget) (name : string) : list string :=
  if str_truthy (exact_text w name) then [name ++ "=" ++ exact_text w name]
  else
    (if str_truthy (min_text w name)
     then ["min" ++ name ++ "=" ++ min_text w name] else [])
    ++ (if str_truthy (max_text w name)
        then ["max" ++ name ++ "=" ++ max_text w name] else []).

(** Fields written out, each followed by the separator. *)
Fixpoint join_fields (fs : list string) : string :=
  match fs with
  | [] => ""
  | f :: fs' => f ++ "&" ++ join_fields fs'
  end.

(** All fields of the form, parameter after parameter. *)
Definition all_fields (w : BoredApiWidget) (names : list string) : list string :=
  flat_map (param_fields w) names.

(** What one parameter adds to the query string. *)
Definition contribution (w : BoredApiWidget) (name : string) : string :=
  join_fields (param_fields w name).

(** A parameter contributes when one of the fields the builder reads for it
    is filled in. *)
Definition contributes (w : BoredApiWidget) (name : string) : bool :=
  str_truthy (exact_text w name)
  || str_truthy (min_text w name)
  || str_truthy (max_text w name).

(** No text typed into the parameter fields holds the separator. *)
Definition no_amp_in (w : BoredApiWidget) (name : string) : bool :=
  negb (has_char amp (exact_text w name))
  && negb (has_char amp (min_text w name))
  && negb (has_char amp (max_text w name)).

Definition no_amp_typed (w : BoredApiWidget) : bool :=
  forallb (no_amp_in w) param_names.

(** No text the builder writes into the query string holds the separator:
    for a parameter with an exact value that is its exact text; for any
    other parameter its min and max texts.  The min and max texts of a
    parameter with an exact value are never read. *)
Definition no_amp_read (w : BoredApiWidget) (name : string) : bool :=
  if str_truthy (exact_text w name)
  then negb (has_char amp (exact_text w name))
  else negb (has_char amp (min_text w name))
       && negb (has_char amp (max_text w name)).

Definition no_amp_interpolated (w : BoredApiWidget) : bool :=
  forallb (no_amp_read w) param_names.

(* ================================================================== *)
(** ** Sample forms *)

(** A form with a separator typed into the exact field of [type], and an
    exact price. *)
Definition form_amp_exact : BoredApiWidget :=
  type_exact "price" "1" (type_exact "type" "a&minprice=2&maxprice=3" __init__).

(** A form with a separator typed into the exact field of [type], and a
    minimum price alone. *)
Definition form_amp_min : BoredApiWidget :=
  type_min "price" "1" (type_exact "type" "a&price=2&maxprice=3" __init__).

(** A form with an exact type, a range of participants, a maximum price and
    all three fields of accessibility filled in. *)
Definition form_mixed : BoredApiWidget :=
  type_exact "accessibility" "0.2"
    (type_min "accessibility" "0.1"
       (type_max "accessibility" "0.9"
          (type_max "price" "0.5"
             (type_max "participants" "4"
                (type_min "participants" "2"
                   (type_exact "type" "social" __init__)))))).

(** A form with an exact price, and a range for the price typed besides,
    with the separator in its minimum. *)
Definition form_exact_over_range : BoredApiWidget :=
  type_exact "price" "1" (type_min "price" "2&" (type_max "price" "9" __init__)).

(** A form with a minimum price alone, and for participants an exact value
    with the separator in the minimum typed besides. *)
Definition form_min_beside_unread : BoredApiWidget :=
  type_min "price" "1"
    (type_exact "participants" "3" (type_min "participants" "x&" __init__)).

(** A form with a minimum price alone. *)
Definition form_min_price : BoredApiWidget :=
  type_exact "type" "social" (type_min "price" "0.1" __init__).

(* ================================================================== *)
(** ** The slots: state, log and exceptions

    A slot runs on the widget, may call [requests.get] and
    [response.json()], and may let an exception escape.  The log records
    those two calls in the order they are made. *)

Inductive event : Type :=
| EvGet (url : string)
| EvJson.

Record world : Type := mkWorld {
  self : BoredApiWidget;
  log : list event
}.

Definition M (A : Type) : Type := world -> Err A * world.

Definition ret {A : Type} (a : A) : M A := fun s => (inr a, s).

Definition bind {A B : Type} (m : M A) (k : A -> M B) : M B :=
  fun s =>
    match m s with
    | (inr a, s') => k a s'
    | (inl e, s') => (inl e, s')
    end.

Declare Scope slot_scope.
Delimit Scope slot_scope with slot.
Notation "x <- m ;; k" := (bind m (fun x => k))
  (at level 61, m at next level, right associativity) : slot_scope.
Notation "m ;; k" := (bind m (fun _ => k))
  (at level 61, right associativity) : slot_scope.

(** A pure computation that may raise, run inside a slot. *)
Definition lift {A : Type} (e : Err A) : M A := fun s => (e, s).

Definition get_self : M BoredApiWidget := fun s => (inr (self s), s).

Definition put_output (l : list item) : M unit :=
  fun s => (inr tt, mkWorld (set_output (self s) l) (log s)).

Definition record (ev : event) : M unit :=
  fun s => (inr tt, mkWorld (self s) (log s ++ [ev])).

(** The URLs the logged calls of [requests.get] went to. *)
Fixpoint requests_made (l : list event) : list string :=
  match l with
  | [] => []
  | EvGet url :: l' => url :: requests_made l'
  | EvJson :: l' => requests_made l'
  end.

(** How often [response.json()] was called. *)
Fixpoint json_calls (l : list event) : nat :=
  match l with
  | [] => 0
  | EvGet _ :: l' => json_calls l'
  | EvJson :: l' => S (json_calls l')
  end.

(** The inner loop of [_cleanup] on a child that is a layout: its items are
    taken out one by one, and those that are widgets go to [deleteLater]. *)
Fixpoint _cleanup_child (children : list item) : list item * list string :=
  match children with
  | [] => ([], [])
  | child_child :: rest =>
      let (left, deleted) := _cleanup_child rest in
      match child_child with
      | Widget text => (left, text :: deleted)
      | Layout _ => (left, deleted)
      end
  end.

(** The outer loop of [_cleanup]: [takeAt(0)] while [count()] is not zero.
    Gives what is left in the layout and the widgets sent to [deleteLater]. *)
Fixpoint _cleanup_loop (output_layout : list item) : list item * list string :=
  match output_layout with
  | [] => ([], [])
  | child :: rest =>
      let (left, deleted) := _cleanup_loop rest in
      match child with
      | Widget text => (left, text :: deleted)
      | Layout children => (left, (snd (_cleanup_child children) ++ deleted)%list)
      end
  end.

Definition _cleanup : M unit :=
  (w <- get_self ;;
   put_output (fst (_cleanup_loop (output_layout w))))%slot.

(** The label [_display_error] builds for [message]. *)
Definition error_label (message : string) : item :=
  Widget ("<span style='color:red;'>ERROR: " ++ message ++ "</span>").

(** [_display_error]: one more label at the bottom of the output layout. *)
Definition _display_error (message : string) : M unit :=
  (w <- get_self ;;
   put_output (output_layout w ++ [error_label message]))%slot.

(** [output_layout.addRow(QLabel(a), QLabel(b))]. *)
Definition addRow (a b : string) : M unit :=
  (w <- get_self ;;
   put_output (output_layout w ++ [Widget a; Widget b]))%slot.

(** [for x in xs: body(x)] inside a slot. *)
Fixpoint for_each {X : Type} (xs : list X) (body : X -> M unit) : M unit :=
  match xs with
  | [] => ret tt
  | x :: xs' => (body x ;; for_each xs' body)%slot
  end.

(* ================================================================== *)
(** ** Clearing the form *)

(** [setText] on the line edit of the key. *)
Definition setText_key (v : string) : M unit :=
  fun s => (inr tt, mkWorld (type_key v (self s)) (log s)).

(** [self.d_multi_input_fields[input_name].setText(v)]: the lookup raises
    [KeyError] on a missing name, and nothing is written then. *)
Definition setText_exact (input_name v : string) : M unit :=
  fun s =>
    match dict_get (d_multi_input_fields (self s)) input_name with
    | Some _ => (inr tt, mkWorld (type_exact input_name v (self s)) (log s))
    | None => (inl (KeyError input_name), s)
    end.

Definition setText_min (input_name v : string) : M unit :=
  fun s =>
    match dict_get (d_multi_input_min_fields (self s)) input_name with
    | Some _ => (inr tt, mkWorld (type_min input_name v (self s)) (log s))
    | None => (inl (KeyError input_name), s)
    end.

Definition setText_max (input_name v : string) : M unit :=
  fun s =>
    match dict_get (d_multi_input_max_fields (self s)) input_name with
    | Some _ => (inr tt, mkWorld (type_max input_name v (self s)) (log s))
    | None => (inl (KeyError input_name), s)
    end.

(** [_clear]. *)
Definition _clear : M unit :=
  (setText_key "" ;;
   w <- get_self ;;
   for_each (dict_keys (d_multi_input_fields w)) (fun input_name =>
     setText_exact input_name "" ;;
     setText_min input_name "" ;;
     setText_max input_name ""))%slot.

(** A row of [multi_input_layout] that holds line edits: the exact row of a
    parameter, or its range row with the min and the max line edit. *)
Inductive form_row : Type :=
| ExactRow (input_name : string)
| RangeRow (input_name : string).

(** [_add_param_entry] with what it puts on the form: the line edits go
    into the three dictionaries in any case, the exact row is added, and the
    range row is added only [if allow_range]. *)
Definition _add_param_entry_with_rows (input_name : string) (allow_range : bool)
    (f : BoredApiWidget * list form_row) : BoredApiWidget * list form_row :=
  let w := _add_param_entry input_name (fst f) in
  let multi_input_layout := (snd f ++ [ExactRow input_name])%list in
  if allow_range
  then (w, (multi_input_layout ++ [RangeRow input_name])%list)
  else (w, multi_input_layout).

(** The four calls of [__init__]: [type] with [allow_range=False], the
    others with the default [True]. *)
Definition __init___with_rows : BoredApiWidget * list form_row :=
  _add_param_entry_with_rows "accessibility" true
    (_add_param_entry_with_rows "price" true
       (_add_param_entry_with_rows "participants" true
          (_add_param_entry_with_rows "type" false (mkWidget "" [] [] [] [], [])))).

Fixpoint range_rows (multi_input_layout : list form_row) : list string :=
  match multi_input_layout with
  | [] => []
  | ExactRow _ :: rows => range_rows rows
  | RangeRow input_name :: rows => input_name :: range_rows rows
  end.

Fixpoint exact_rows (multi_input_layout : list form_row) : list string :=
  match multi_input_layout with
  | [] => []
  | ExactRow input_name :: rows => input_name :: exact_rows rows
  | RangeRow _ :: rows => exact_rows rows
  end.

(** The names whose range row [__init__] puts on the form. *)
Definition range_row_names : list string :=
  range_rows (snd __init___with_rows).

(** The widgets a user can bring about: from [__init__], by typing into a
    line edit that is on the form, by the Clear button, and by whatever a
    slot puts into the output layout. *)
Inductive reachable : BoredApiWidget -> Prop :=
| reach_init : reachable __init__
| reach_key (v : string) (w : BoredApiWidget) :
    reachable w -> reachable (type_key v w)
| reach_exact (name v : string) (w : BoredApiWidget) :
    In name param_names -> reachable w -> reachable (type_exact name v w)
| reach_min (name v : string) (w : BoredApiWidget) :
    In name range_row_names -> reachable w -> reachable (type_min name v w)
| reach_max (name v : string) (w : BoredApiWidget) :
    In name range_row_names -> reachable w -> reachable (type_max name v w)
| reach_clear (w : BoredApiWidget) (l : list event) :
    reachable w -> reachable (self (snd (_clear (mkWorld w l))))
| reach_output (items : list item) (w : BoredApiWidget) :
    reachable w -> reachable (set_output w items).

(* ================================================================== *)
(** ** Reading a query string back *)

(** [f.partition("=")] without the sign: the key and the value of a field. *)
Fixpoint split_field (f : string) : string * string :=
  match f with
  | EmptyString => (EmptyString, EmptyString)
  | String c r =>
      if Ascii.eqb c equals_sign then (EmptyString, r)
      else let (k, v) := split_field r in (String c k, v)
  end.

(** The keys and values the form holds for one parameter, as the
    specification words the builder. *)
Definition param_pairs (w : BoredApiWidget) (name : string)
  : list (string * string) :=
  if str_truthy (exact_text w name) then [(name, exact_text w name)]
  else
    (if str_truthy (min_text w name)
     then [("min" ++ name, min_text w name)] else [])
    ++ (if str_truthy (max_text w name)
        then [("max" ++ name, max_text w name)] else []).

Definition typed_pairs (w : BoredApiWidget) : list (string * string) :=
  flat_map (param_pairs w) param_names.

(* ================================================================== *)
(** ** Items of a layout *)

(** The labels that sit in a layout itself. *)
Fixpoint own_widgets (l : list item) : list string :=
  match l with
  | [] => []
  | Widget text :: l' => text :: own_widgets l'
  | Layout _ :: l' => own_widgets l'
  end.

(** No item of the layout is a layout. *)
Fixpoint flat (l : list item) : bool :=
  match l with
  | [] => true
  | Widget _ :: l' => flat l'
  | Layout _ :: _ => false
  end.

Section Executor.

(** Python's [float] is kept abstract: the program only prints a float and
    tests it for zero.  [str_repr] is [repr] of a [str], which CPython
    applies to the strings inside a list or a dict it prints. *)
Variable pyfloat : Type.
Variable float_str : pyfloat -> string.
Variable float_truthy : pyfloat -> bool.
Variable str_repr : string -> string.

(** The values [response.json()] returns. *)
Inductive pyval : Type :=
| PyNone
| PyBool (b : bool)
| PyInt (n : Z)
| PyFloat (x : pyfloat)
| PyStr (s : string)
| PyList (l : list pyval)
| PyDict (d : list (string * pyval)).

(** [repr(v)]. *)
Fixpoint py_repr (v : pyval) : string :=
  match v with
  | PyNone => "None"
  | PyBool true => "True"
  | PyBool false => "False"
  | PyInt n => int_str n
  | PyFloat x => float_str x
  | PyStr s => str_repr s
  | PyList l => "[" ++ String.concat ", " (map py_repr l) ++ "]"
  | PyDict d =>
      "{" ++ String.concat ", "
               (map (fun kv : string * pyval =>
                       let (k, x) := kv in str_repr k ++ ": " ++ py_repr x) d)
          ++ "}"
  end.

(** [f"{v}"], which is [str(v)]: a [str] as it is, anything else as its
    [repr]. *)
Definition py_str (v : pyval) : string :=
  match v with
  | PyStr s => s
  | _ => py_repr v
  end.

(** [bool(v)], the test of [if v:]. *)
Definition py_truthy (v : pyval) : bool :=
  match v with
  | PyNone => false
  | PyBool b => b
  | PyInt n => negb (n =? 0)%Z
  | PyFloat x => float_truthy x
  | PyStr s => str_truthy s
  | PyList l => match l with [] => false | _ :: _ => true end
  | PyDict d => match d with [] => false | _ :: _ => true end
  end.

(** What [requests.get] hands back: the status code, and what [.json()]
    does, which is to return the decoded body or to raise. *)
Record Response : Type := mkResponse {
  status_code : Z;
  json : Err pyval
}.

(** The network: what [requests.get] does on a URL, return or raise. *)
Variable requests_get : string -> Err Response.

(** [d_response.get("error")]: [None] for a missing key, and
    [AttributeError] on a value that has no [get]. *)
Definition py_get (d_response : pyval) (k : string) : Err pyval :=
  match d_response with
  | PyDict d =>
      match dict_get d k with
      | Some v => inr v
      | None => inr PyNone
      end
  | _ => inl (AttributeError "get")
  end.

(** [d_response.items()]. *)
Definition py_items (d_response : pyval) : Err (list (string * pyval)) :=
  match d_response with
  | PyDict d => inr d
  | _ => inl (AttributeError "items")
  end.

(** [_query]. *)
Definition _query (query : string) : M unit :=
  (record (EvGet query) ;;
   response <- lift (requests_get query) ;;
   if negb (status_code response =? 200)%Z then
     _display_error ("API request failed: " ++ int_str (status_code response))
   else
     record EvJson ;;
     d_response <- lift (json response) ;;
     error_message <- lift (py_get d_response "error") ;;
     if py_truthy error_message then
       _display_error ("API request returned error: " ++ py_str error_message)
     else
       items <- lift (py_items d_response) ;;
       for_each items (fun kv : string * pyval =>
         let (key, value) := kv in addRow (key ++ ":") (py_str value)))%slot.

(** [query_random]. *)
Definition query_random : M unit :=
  (_cleanup ;;
   _query BORED_API_URL)%slot.

(** [query_key]. *)
Definition query_key : M unit :=
  (_cleanup ;;
   w <- get_self ;;
   let key := key_input_field w in
   if negb (str_truthy key) then
     _display_error "No key provided"
   else
     _query (BORED_API_URL ++ "?key=" ++ key))%slot.

(** [query_multi]. *)
Definition query_multi : M unit :=
  (_cleanup ;;
   w <- get_self ;;
   query_tail <- lift (query_multi_tail w) ;;
   _query (BORED_API_URL ++ "?" ++ query_tail))%slot.

(** The rows [_query] shows for a decoded body: the label and the value of
    each key, in the order of the dictionary. *)
Definition result_rows (d : list (string * pyval)) : list (string * string) :=
  map (fun kv => (fst kv, py_str (snd kv))) d.

Definition row_items (rows : list (string * string)) : list item :=
  flat_map (fun r => [Widget (fst r ++ ":"); Widget (snd r)]) rows.

(** The widget with an empty output layout. *)
Definition cleared (s : world) : world :=
  mkWorld (set_output (self s) []) (log s).

(** The world after a slot has run. *)
Definition after {A : Type} (m : M A) (s : world) : world := snd (m s).

(** [d_response.get("error")] on a dictionary: the entry, or [None]. *)
Definition error_entry (d : list (string * pyval)) : pyval :=
  match dict_get d "error" with
  | Some v => v
  | None => PyNone
  end.

(** The three slots behind the query buttons. *)
Definition slots : list (M unit) := [query_random; query_key; query_multi].


(* ================================================================== *)
(** ** Tactics *)

(** Split a hypothesis [In x [a; b; ...]] into one goal per element. *)
Ltac in_cases H :=
  cbn in H; repeat (destruct H as [<- | H]; [|]); try (now destruct H).

(** Prove [In x [a; b; ...]] for an [x] that is in the list. *)
Ltac in_list := cbn; repeat (first [left; reflexivity | right]).

(* ================================================================== *)
(** ** Strings: append, occurrence, fields *)

Lemma append_assoc (a b c : string) : (a ++ b) ++ c = a ++ b ++ c.
Proof.
  induction a as [|x a IH]; simpl; [reflexivity | now rewrite IH].
Qed.

Lemma append_empty_r (a : string) : a ++ "" = a.
Proof.
  induction a as [|x a IH]; simpl; [reflexivity | now rewrite IH].
Qed.

Lemma contains_here (t b : string) : contains (t ++ b) t.
Proof. exists "", b. reflexivity. Qed.

Lemma contains_app_l (a s t : string) : contains s t -> contains (a ++ s) t.
Proof.
  intros [x [y ->]]. exists (a ++ x), y. now rewrite append_assoc.
Qed.

Lemma contains_app_r (s b t : string) : contains s t -> contains (s ++ b) t.
Proof.
  intros [x [y ->]]. exists x, (y ++ b). now rewrite !append_assoc.
Qed.

Lemma starts_with_app (p s : string) : starts_with p (p ++ s) = true.
Proof.
  induction p as [|c p IH]; simpl; [reflexivity|].
  now rewrite Ascii.eqb_refl, IH.
Qed.

Lemma starts_with_split (p s : string) :
  starts_with p s = true -> exists r, s = p ++ r.
Proof.
  revert s; induction p as [|c p IH]; intros s H; simpl in *.
  - now exists s.
  - destruct s as [|d s]; [discriminate|].
    apply andb_true_iff in H as [Hc Hp].
    apply Ascii.eqb_eq in Hc as ->.
    destruct (IH _ Hp) as [r ->]. now exists r.
Qed.

Lemma containsb_sound (s t : string) : containsb s t = true -> contains s t.
Proof.
  induction s as [|c s IH]; simpl; intros H.
  - rewrite orb_false_r in H. destruct (starts_with_split _ _ H) as [r ->].
    apply contains_here.
  - apply orb_true_iff in H as [H|H].
    + destruct (starts_with_split _ _ H) as [r ->]. apply contains_here.
    + apply (contains_app_l (String c "")), IH, H.
Qed.

Lemma containsb_complete (s t : string) : contains s t -> containsb s t = true.
Proof.
  intros [a [b ->]]. induction a as [|c a IH]; simpl.
  - pose proof (starts_with_app t b) as H.
    destruct (t ++ b); simpl; now rewrite H.
  - rewrite IH. apply orb_true_r.
Qed.

Lemma last_char_app_amp (s : string) : last_char (s ++ "&") = Some amp.
Proof.
  induction s as [|c s IH]; [reflexivity|].
  simpl. destruct (s ++ "&") eqn:E; [|exact IH].
  destruct s; discriminate.
Qed.

Lemma last_char_app (a b : string) :
  b <> "" -> last_char (a ++ b) = last_char b.
Proof.
  intros Hb. induction a as [|c a IH]; [reflexivity|].
  simpl. destruct (a ++ b) eqn:E; [|exact IH].
  destruct a; simpl in E; [contradiction | discriminate].
Qed.

Lemma has_char_app (c : ascii) (a b : string) :
  has_char c (a ++ b) = has_char c a || has_char c b.
Proof.
  induction a as [|x a IH]; simpl; [reflexivity|].
  now rewrite IH, orb_assoc.
Qed.

(** A field that holds no separator is split off whole. *)
Lemma fields_app_amp (f r : string) :
  has_char amp f = false -> fields (f ++ "&" ++ r) = f :: fields r.
Proof.
  induction f as [|c f IH]; simpl; intros H.
  - reflexivity.
  - apply orb_false_iff in H as [Hc Hf].
    specialize (IH Hf). simpl in IH. rewrite Hc, IH. reflexivity.
Qed.

Lemma fields_join (fs : list string) :
  Forall (fun f => has_char amp f = false) fs ->
  fields (join_fields fs) = (fs ++ [""])%list.
Proof.
  induction 1 as [|f fs Hf _ IH]; [reflexivity|].
  cbn [join_fields]. now rewrite (fields_app_amp _ _ Hf), IH.
Qed.

Lemma join_fields_app (fs gs : list string) :
  join_fields (fs ++ gs)%list = join_fields fs ++ join_fields gs.
Proof.
  induction fs as [|f fs IH]; simpl; [reflexivity|].
  now rewrite IH, !append_assoc.
Qed.

(* ================================================================== *)
(** ** The loop of [query_multi] against the worded builder *)

Lemma dict_get_key {V : Type} (d : dict V) (k : string) :
  In k (dict_keys d) -> exists v, dict_get d k = Some v.
Proof.
  induction d as [|[k' v'] d IH]; simpl; intros H; [contradiction|].
  destruct (String.eqb_spec k' k) as [->|Hne].
  - now exists v'.
  - destruct H as [H|H]; [contradiction | exact (IH H)].
Qed.

Lemma dict_item_text (d : dict string) (k : string) :
  In k (dict_keys d) -> dict_item d k = inr (text_of d k).
Proof.
  intros H. destruct (dict_get_key d k H) as [v Hv].
  unfold dict_item, text_of. now rewrite Hv.
Qed.

Lemma join_fields_one (f : string) : join_fields [f] = f ++ "&".
Proof. reflexivity. Qed.

(** One pass of the loop appends the contribution of its parameter. *)
Lemma query_multi_body_spec (w : BoredApiWidget) (acc name : string) :
  In name (dict_keys (d_multi_input_fields w)) ->
  In name (dict_keys (d_multi_input_min_fields w)) ->
  In name (dict_keys (d_multi_input_max_fields w)) ->
  query_multi_body w acc name = inr (acc ++ contribution w name).
Proof.
  intros He Hm HM.
  unfold query_multi_body, contribution, param_fields.
  rewrite (dict_item_text _ _ He). cbn [err_bind].
  fold (exact_text w name).
  destruct (str_truthy (exact_text w name)).
  - rewrite join_fields_one, !append_assoc. reflexivity.
  - rewrite (dict_item_text _ _ Hm). cbn [err_bind].
    rewrite (dict_item_text _ _ HM). cbn [err_bind].
    fold (min_text w name). fold (max_text w name).
    destruct (str_truthy (min_text w name)), (str_truthy (max_text w name));
      cbn [app join_fields err_ret];
      rewrite ?append_assoc, ?append_empty_r; reflexivity.
Qed.

Lemma err_for_body_spec (w : BoredApiWidget) (names : list string) :
  forall acc,
    (forall n, In n names ->
       In n (dict_keys (d_multi_input_fields w))
       /\ In n (dict_keys (d_multi_input_min_fields w))
       /\ In n (dict_keys (d_multi_input_max_fields w))) ->
    err_for names (query_multi_body w) acc
    = inr (acc ++ join_fields (all_fields w names)).
Proof.
  induction names as [|n names IH]; intros acc H.
  - simpl. now rewrite append_empty_r.
  - cbn [err_for].
    destruct (H n (or_introl eq_refl)) as [He [Hm HM]].
    rewrite (query_multi_body_spec w acc n He Hm HM). cbn [err_bind].
    rewrite IH by (intros m Hin; apply H; now right).
    unfold all_fields. cbn [flat_map]. fold (all_fields w names).
    rewrite join_fields_app, append_assoc. reflexivity.
Qed.

(** On a widget the program can hold the loop never raises, and it builds
    the fields of the four parameters in the order of [__init__]. *)
Lemma query_multi_tail_spec (w : BoredApiWidget) :
  well_formed w ->
  query_multi_tail w = inr (join_fields (all_fields w param_names)).
Proof.
  intros [He [Hm HM]]. unfold query_multi_tail.
  rewrite (err_for_body_spec w _ "").
  - now rewrite He.
  - intros n Hn. rewrite Hm, HM, <- He. auto.
Qed.

Lemma well_formed_init : well_formed __init__.
Proof. repeat split. Qed.

Lemma dict_keys_set_present {V : Type} (d : dict V) (k : string) (v : V) :
  In k (dict_keys d) -> dict_keys (dict_set d k v) = dict_keys d.
Proof.
  induction d as [|[k' v'] d IH]; simpl; intros H; [contradiction|].
  destruct (String.eqb_spec k' k) as [->|Hne]; [reflexivity|].
  destruct H as [H|H]; [contradiction|].
  simpl. f_equal. exact (IH H).
Qed.

(** Typing into a field of the form keeps the widget well formed. *)
Lemma well_formed_type_exact (name v : string) (w : BoredApiWidget) :
  In name param_names -> well_formed w -> well_formed (type_exact name v w).
Proof.
  intros Hn [He [Hm HM]]. repeat split; simpl; try assumption.
  rewrite dict_keys_set_present; [assumption | now rewrite He].
Qed.

Lemma well_formed_type_min (name v : string) (w : BoredApiWidget) :
  In name param_names -> well_formed w -> well_formed (type_min name v w).
Proof.
  intros Hn [He [Hm HM]]. repeat split; simpl; try assumption.
  rewrite dict_keys_set_present; [assumption | now rewrite Hm].
Qed.

Lemma well_formed_type_max (name v : string) (w : BoredApiWidget) :
  In name param_names -> well_formed w -> well_formed (type_max name v w).
Proof.
  intros Hn [He [Hm HM]]. repeat split; simpl; try assumption.
  rewrite dict_keys_set_present; [assumption | now rewrite HM].
Qed.

Lemma well_formed_type_key (v : string) (w : BoredApiWidget) :
  well_formed w -> well_formed (type_key v w).
Proof. intros H; exact H. Qed.

(* ================================================================== *)
(** ** Fields of the built query string *)

Lemma in_join_contains (fs : list string) (f : string) :
  In f fs -> contains (join_fields fs) f.
Proof.
  induction fs as [|g fs IH]; intros H; [contradiction|].
  cbn [join_fields]. destruct H as [->|H].
  - apply contains_here.
  - apply contains_app_l, (contains_app_l "&"), IH, H.
Qed.

Lemma join_fields_trailing (fs : list string) :
  fs <> [] -> exists s, join_fields fs = s ++ "&".
Proof.
  induction fs as [|f fs IH]; intros H; [contradiction|].
  destruct fs as [|g fs].
  - now exists f.
  - destruct IH as [s Hs]; [discriminate|].
    exists (f ++ "&" ++ s). cbn [join_fields] in *.
    now rewrite Hs, !append_assoc.
Qed.

Lemma join_fields_empty (fs : list string) : join_fields fs = "" -> fs = [].
Proof.
  destruct fs as [|f fs]; [reflexivity|].
  cbn [join_fields]. destruct f; discriminate.
Qed.

(** The three shapes a field of one parameter can have. *)
Lemma in_param_fields (w : BoredApiWidget) (n f : string) :
  In f (param_fields w n) ->
  (str_truthy (exact_text w n) = true /\ f = n ++ "=" ++ exact_text w n)
  \/ (str_truthy (exact_text w n) = false
      /\ str_truthy (min_text w n) = true
      /\ f = "min" ++ n ++ "=" ++ min_text w n)
  \/ (str_truthy (exact_text w n) = false
      /\ str_truthy (max_text w n) = true
      /\ f = "max" ++ n ++ "=" ++ max_text w n).
Proof.
  unfold param_fields.
  destruct (str_truthy (exact_text w n)).
  - intros [<-|[]]. now left.
  - destruct (str_truthy (min_text w n)), (str_truthy (max_text w n));
      cbn [app In]; intros H;
      repeat (destruct H as [<- | H]; [auto 6|]); destruct H.
Qed.

Lemma param_fields_nil (w : BoredApiWidget) (n : string) :
  param_fields w n = [] <-> contributes w n = false.
Proof.
  unfold param_fields, contributes.
  destruct (str_truthy (exact_text w n)), (str_truthy (min_text w n)),
    (str_truthy (max_text w n)); cbn; split; intros H;
    try discriminate; reflexivity.
Qed.

Lemma in_all_fields (w : BoredApiWidget) (names : list string) (f : string) :
  In f (all_fields w names) <-> exists n, In n names /\ In f (param_fields w n).
Proof. unfold all_fields. apply in_flat_map. Qed.

Lemma param_name_chars (n : string) :
  In n param_names ->
  has_char equals_sign n = false /\ has_char amp n = false.
Proof. intros H. in_cases H; split; reflexivity. Qed.

Lemma no_amp_in_spec (w : BoredApiWidget) (n : string) :
  no_amp_typed w = true -> In n param_names ->
  has_char amp (exact_text w n) = false
  /\ has_char amp (min_text w n) = false
  /\ has_char amp (max_text w n) = false.
Proof.
  unfold no_amp_typed. rewrite forallb_forall. intros H Hn.
  specialize (H n Hn). unfold no_amp_in in H.
  rewrite !andb_true_iff, !negb_true_iff in H.
  destruct H as [[He Hm] HM]. auto.
Qed.

(** When no typed text holds the separator, no field of the form does. *)
Lemma all_fields_no_amp (w : BoredApiWidget) :
  no_amp_typed w = true ->
  Forall (fun f => has_char amp f = false) (all_fields w param_names).
Proof.
  intros H. apply Forall_forall. intros f Hf.
  apply in_all_fields in Hf as [n [Hn Hf]].
  destruct (no_amp_in_spec w n H Hn) as [He [Hm HM]].
  apply in_param_fields in Hf.
  destruct (param_name_chars n Hn) as [_ Hname].
  destruct Hf as [[_ ->]|[[_ [_ ->]]|[_ [_ ->]]]];
    rewrite !has_char_app, ?Hname, ?He, ?Hm, ?HM; reflexivity.
Qed.

(** The fields a server reads off the built string: the fields of the form
    and the empty field after the last separator. *)
Lemma fields_of_tail (w : BoredApiWidget) :
  no_amp_typed w = true ->
  fields (join_fields (all_fields w param_names))
  = (all_fields w param_names ++ [""])%list.
Proof. intros H. apply fields_join, all_fields_no_amp, H. Qed.

Lemma no_amp_read_spec (w : BoredApiWidget) (n : string) :
  no_amp_interpolated w = true -> In n param_names ->
  (str_truthy (exact_text w n) = true -> has_char amp (exact_text w n) = false)
  /\ (str_truthy (exact_text w n) = false ->
      has_char amp (min_text w n) = false
      /\ has_char amp (max_text w n) = false).
Proof.
  unfold no_amp_interpolated. rewrite forallb_forall. intros H Hn.
  specialize (H n Hn). unfold no_amp_read in H.
  destruct (str_truthy (exact_text w n)).
  - apply negb_true_iff in H. split; [auto | discriminate].
  - rewrite andb_true_iff, !negb_true_iff in H. split; [discriminate | auto].
Qed.

(** When no text the builder writes holds the separator, no field does. *)
Lemma all_fields_no_amp_read (w : BoredApiWidget) :
  no_amp_interpolated w = true ->
  Forall (fun f => has_char amp f = false) (all_fields w param_names).
Proof.
  intros H. apply Forall_forall. intros f Hf.
  apply in_all_fields in Hf as [n [Hn Hf]].
  destruct (no_amp_read_spec w n H Hn) as [He Hr].
  destruct (param_name_chars n Hn) as [_ Hname].
  apply in_param_fields in Hf.
  destruct Hf as [[Ht ->]|[[Ht [_ ->]]|[Ht [_ ->]]]].
  - now rewrite !has_char_app, Hname, (He Ht).
  - destruct (Hr Ht) as [Hm _]. now rewrite !has_char_app, Hname, Hm.
  - destruct (Hr Ht) as [_ HM]. now rewrite !has_char_app, Hname, HM.
Qed.

Lemma fields_of_tail_read (w : BoredApiWidget) :
  no_amp_interpolated w = true ->
  fields (join_fields (all_fields w param_names))
  = (all_fields w param_names ++ [""])%list.
Proof. intros H. apply fields_join, all_fields_no_amp_read, H. Qed.

Lemma all_fields_app (w : BoredApiWidget) (xs ys : list string) :
  all_fields w (xs ++ ys) = (all_fields w xs ++ all_fields w ys)%list.
Proof. unfold all_fields. apply flat_map_app. Qed.

(** The loop around one parameter: the query string is what the loop
    builds over the names before it, then the contribution of the
    parameter, then what the loop builds over the names after it. *)
Lemma query_multi_tail_around (w : BoredApiWidget) (name : string) :
  well_formed w ->
  In name param_names ->
  exists before later pre post,
    param_names = (before ++ name :: later)%list
    /\ err_for before (query_multi_body w) "" = inr pre
    /\ err_for later (query_multi_body w) "" = inr post
    /\ query_multi_tail w = inr (pre ++ contribution w name ++ post).
Proof.
  intros Hwf Hname. pose proof Hwf as [He [Hm HM]].
  destruct (in_split _ _ Hname) as [before [later Hsplit]].
  assert (Hkeys : forall names,
             (forall n, In n names -> In n param_names) ->
             err_for names (query_multi_body w) ""
             = inr (join_fields (all_fields w names))).
  { intros names Hin. rewrite (err_for_body_spec w names ""); [reflexivity|].
    intros n Hn. rewrite He, Hm, HM. auto. }
  exists before, later, (join_fields (all_fields w before)),
    (join_fields (all_fields w later)).
  split; [exact Hsplit|]. split; [|split].
  - apply Hkeys. intros n Hn. rewrite Hsplit. apply in_or_app. now left.
  - apply Hkeys. intros n Hn. rewrite Hsplit. apply in_or_app. right. now right.
  - rewrite (query_multi_tail_spec w Hwf), Hsplit.
    change (name :: later) with ([name] ++ later)%list.
    rewrite !all_fields_app, !join_fields_app.
    unfold contribution, all_fields at 2. cbn [flat_map].
    now rewrite app_nil_r.
Qed.

(** The key of a field is what stands before its first equals sign: a key
    and the separator sign, at the head of a field, give the field's key. *)
Lemma starts_with_key (p k v : string) :
  has_char equals_sign p = false ->
  has_char equals_sign k = false ->
  starts_with (p ++ "=") (k ++ "=" ++ v) = true ->
  p = k.
Proof.
  unfold equals_sign.
  revert k; induction p as [|a p IH]; intros [|c k] Hp Hk H;
    cbn [starts_with has_char append] in *.
  - reflexivity.
  - apply orb_false_iff in Hk as [Hc _].
    apply andb_true_iff in H as [H _].
    rewrite Ascii.eqb_sym in Hc. congruence.
  - apply orb_false_iff in Hp as [Ha _].
    apply andb_true_iff in H as [H _]. congruence.
  - apply orb_false_iff in Hp as [_ Hp].
    apply orb_false_iff in Hk as [_ Hk].
    apply andb_true_iff in H as [Hac H].
    apply Ascii.eqb_eq in Hac as ->.
    f_equal. now apply IH.
Qed.


(** A field of the built string that starts with [p=] belongs to a parameter
    [n] of the form, and [p] is the key the builder wrote for it. *)
Lemma field_key_cases (w : BoredApiWidget) (p f : string) :
  In f (all_fields w param_names ++ [""]) ->
  has_char equals_sign p = false ->
  starts_with (p ++ "=") f = true ->
  exists n, In n param_names
    /\ ((str_truthy (exact_text w n) = true /\ p = n)
        \/ (str_truthy (exact_text w n) = false
            /\ str_truthy (min_text w n) = true /\ p = "min" ++ n)
        \/ (str_truthy (exact_text w n) = false
            /\ str_truthy (max_text w n) = true /\ p = "max" ++ n)).
Proof.
  intros Hf Hp Hs. apply in_app_or in Hf as [Hf|[<-|[]]].
  - apply in_all_fields in Hf as [n [Hn Hf]].
    exists n. split; [exact Hn|].
    destruct (param_name_chars n Hn) as [Hne _].
    apply in_param_fields in Hf.
    destruct Hf as [[He ->]|[[He [Hm ->]]|[He [HM ->]]]].
    + left. split; [exact He|].
      exact (starts_with_key p n _ Hp Hne Hs).
    + right; left. repeat split; try assumption.
      rewrite <- append_assoc in Hs.
      refine (starts_with_key p ("min" ++ n) _ Hp _ Hs).
      now rewrite has_char_app, Hne.
    + right; right. repeat split; try assumption.
      rewrite <- append_assoc in Hs.
      refine (starts_with_key p ("max" ++ n) _ Hp _ Hs).
      now rewrite has_char_app, Hne.
  - destruct p; discriminate.
Qed.

(** No parameter name is another one's range key. *)
Lemma range_key_not_name (pre name n : string) :
  pre = "min" \/ pre = "max" ->
  In name param_names -> In n param_names -> pre ++ name <> n.
Proof.
  intros Hpre Hname Hn. cbn in Hname, Hn.
  destruct Hpre as [-> | ->];
    repeat (destruct Hname as [<-|Hname]; [|]); try contradiction;
    repeat (destruct Hn as [<-|Hn]; [|]); try contradiction;
    discriminate.
Qed.

(* ================================================================== *)
(** ** Claims on the built query string *)

Example query_multi_url_mixed :
  query_multi_url form_mixed
  = inr "http://bored.api.lewagon.com/api/activity/?type=social&minparticipants=2&maxparticipants=4&maxprice=0.5&accessibility=0.2&".
Proof. reflexivity. Qed.

(** C1, as stated, fails: with [a&minprice=2&maxprice=3] typed as the exact
    type and [1] as the exact price, the built string has the fragment
    [price=1] and still contains [minprice=] and [maxprice=], both as text
    and as fields of their own. *)
Lemma exact_precedence_counterexample :
  well_formed form_amp_exact
  /\ exact_text form_amp_exact "price" = "1"
  /\ query_multi_tail form_amp_exact
     = inr "type=a&minprice=2&maxprice=3&price=1&"
  /\ contains "type=a&minprice=2&maxprice=3&price=1&" "minprice="
  /\ contains "type=a&minprice=2&maxprice=3&price=1&" "maxprice="
  /\ fields "type=a&minprice=2&maxprice=3&price=1&"
     = ["type=a"; "minprice=2"; "maxprice=3"; "price=1"; ""].
Proof.
  repeat split; try (apply containsb_sound; reflexivity).
Qed.

(** C1, amended: for a parameter whose exact field holds a non-empty value,
    the pass of the loop for it appends [name=value&] and nothing else,
    whatever its min and max fields hold: the built string is what the loop
    builds over the names before it, then [name=value&], then what the loop
    builds over the names after it, and so contains [name=value].  When no
    text the builder writes into the string holds the separator [&] (the min
    and max texts of a parameter with an exact value are not written and are
    free), [name=value] is one of the fields of the built string and no
    field of it starts with [minname=] or [maxname=]. *)
Theorem exact_takes_precedence (w : BoredApiWidget) (name value : string) :
  well_formed w ->
  In name param_names ->
  exact_text w name = value ->
  value <> "" ->
  (forall query_tail,
     query_multi_body w query_tail name
     = inr (query_tail ++ name ++ "=" ++ value ++ "&"))
  /\ exists t,
    query_multi_tail w = inr t
    /\ (exists before later pre post,
          param_names = (before ++ name :: later)%list
          /\ err_for before (query_multi_body w) "" = inr pre
          /\ err_for later (query_multi_body w) "" = inr post
          /\ t = pre ++ (name ++ "=" ++ value ++ "&") ++ post)
    /\ contains t (name ++ "=" ++ value)
    /\ (no_amp_interpolated w = true ->
        In (name ++ "=" ++ value) (fields t)
        /\ forall f, In f (fields t) ->
             starts_with ("min" ++ name ++ "=") f = false
             /\ starts_with ("max" ++ name ++ "=") f = false).
Proof.
  intros Hwf Hname Hval Hne.
  assert (Htruthy : str_truthy (exact_text w name) = true)
    by (rewrite Hval; destruct value; [contradiction | reflexivity]).
  assert (Hfs : param_fields w name = [name ++ "=" ++ value])
    by (unfold param_fields; now rewrite Htruthy, Hval).
  assert (Hc : contribution w name = name ++ "=" ++ value ++ "&")
    by (unfold contribution; rewrite Hfs; cbn [join_fields];
        now rewrite !append_assoc).
  assert (Hin : In (name ++ "=" ++ value) (all_fields w param_names)).
  { apply in_all_fields. exists name. split; [exact Hname|].
    rewrite Hfs. now left. }
  pose proof Hwf as [He [Hm HM]].
  split.
  { intros query_tail. rewrite <- Hc. apply query_multi_body_spec.
    - now rewrite He.
    - now rewrite Hm.
    - now rewrite HM. }
  exists (join_fields (all_fields w param_names)).
  split; [exact (query_multi_tail_spec w Hwf)|].
  split.
  { destruct (query_multi_tail_around w name Hwf Hname)
      as [before [later [pre [post [Hs [Hpre [Hpost Ht]]]]]]].
    exists before, later, pre, post. repeat split; try assumption.
    rewrite (query_multi_tail_spec w Hwf), Hc in Ht. now injection Ht. }
  split; [exact (in_join_contains _ _ Hin)|].
  intros Hamp. rewrite (fields_of_tail_read w Hamp).
  split; [apply in_or_app; now left|].
  destruct (param_name_chars name Hname) as [Hq _].
  assert (Hkey : forall pre f,
             pre = "min" \/ pre = "max" ->
             In f (all_fields w param_names ++ [""]) ->
             starts_with (pre ++ name ++ "=") f = false).
  { intros pre f Hpre Hf.
    destruct (starts_with (pre ++ name ++ "=") f) eqn:Hs; [|reflexivity].
    exfalso. rewrite <- append_assoc in Hs.
    assert (Hp : has_char equals_sign (pre ++ name) = false)
      by (rewrite has_char_app, Hq; destruct Hpre as [-> | ->]; reflexivity).
    destruct (field_key_cases w _ f Hf Hp Hs) as [n [Hn Hcase]].
    destruct Hcase as [[_ E]|[[Hx [_ E]]|[Hx [_ E]]]].
    - exact (range_key_not_name pre name n Hpre Hname Hn E).
    - destruct Hpre as [-> | ->]; [|discriminate].
      injection E as E. subst n. congruence.
    - destruct Hpre as [-> | ->]; [discriminate|].
      injection E as E. subst n. congruence. }
  intros f Hf. split; apply Hkey; auto.
Qed.

Example query_multi_tail_exact_over_range :
  query_multi_tail form_exact_over_range = inr "price=1&".
Proof. reflexivity. Qed.

Lemma exact_takes_precedence_witness :
  no_amp_interpolated form_exact_over_range = true
  /\ min_text form_exact_over_range "price" = "2&"
  /\ (forall query_tail,
        query_multi_body form_exact_over_range query_tail "price"
        = inr (query_tail ++ "price" ++ "=" ++ "1" ++ "&"))
  /\ exists t,
    query_multi_tail form_exact_over_range = inr t
    /\ (exists before later pre post,
          param_names = (before ++ "price" :: later)%list
          /\ err_for before (query_multi_body form_exact_over_range) "" = inr pre
          /\ err_for later (query_multi_body form_exact_over_range) "" = inr post
          /\ t = pre ++ ("price" ++ "=" ++ "1" ++ "&") ++ post)
    /\ contains t ("price" ++ "=" ++ "1")
    /\ (no_amp_interpolated form_exact_over_range = true ->
        In ("price" ++ "=" ++ "1") (fields t)
        /\ forall f, In f (fields t) ->
             starts_with ("min" ++ "price" ++ "=") f = false
             /\ starts_with ("max" ++ "price" ++ "=") f = false).
Proof.
  split; [reflexivity|]. split; [reflexivity|].
  apply (exact_takes_precedence form_exact_over_range "price" "1").
  - repeat split.
  - in_list.
  - reflexivity.
  - discriminate.
Defined.

(** C2, as stated, fails: with [a&price=2&maxprice=3] typed as the exact
    type and [1] as the minimum price alone, the built string contains
    [minprice=1] and still contains [price=] and [maxprice=], both as text
    and as fields of their own. *)
Lemma min_only_counterexample :
  well_formed form_amp_min
  /\ exact_text form_amp_min "price" = ""
  /\ max_text form_amp_min "price" = ""
  /\ min_text form_amp_min "price" = "1"
  /\ query_multi_tail form_amp_min
     = inr "type=a&price=2&maxprice=3&minprice=1&"
  /\ contains "type=a&price=2&maxprice=3&minprice=1&" "maxprice="
  /\ fields "type=a&price=2&maxprice=3&minprice=1&"
     = ["type=a"; "price=2"; "maxprice=3"; "minprice=1"; ""].
Proof.
  repeat split; try (apply containsb_sound; reflexivity).
Qed.

(** C2, amended: for a parameter whose exact and max fields are empty and
    whose min field holds a non-empty [v], the pass of the loop for it
    appends [minname=v&] and nothing else: the built string is what the loop
    builds over the names before it, then [minname=v&], then what the loop
    builds over the names after it, and so contains [minname=v].  When no
    text the builder writes into the string holds the separator [&] (the min
    and max texts of a parameter with an exact value are not written and are
    free), [minname=v] is one of the fields of the built string and no field
    of it starts with [name=] or [maxname=]. *)
Theorem min_only_query (w : BoredApiWidget) (name v : string) :
  well_formed w ->
  In name param_names ->
  exact_text w name = "" ->
  max_text w name = "" ->
  min_text w name = v ->
  v <> "" ->
  (forall query_tail,
     query_multi_body w query_tail name
     = inr (query_tail ++ "min" ++ name ++ "=" ++ v ++ "&"))
  /\ exists t,
    query_multi_tail w = inr t
    /\ (exists before later pre post,
          param_names = (before ++ name :: later)%list
          /\ err_for before (query_multi_body w) "" = inr pre
          /\ err_for later (query_multi_body w) "" = inr post
          /\ t = pre ++ ("min" ++ name ++ "=" ++ v ++ "&") ++ post)
    /\ contains t ("min" ++ name ++ "=" ++ v)
    /\ (no_amp_interpolated w = true ->
        In ("min" ++ name ++ "=" ++ v) (fields t)
        /\ forall f, In f (fields t) ->
             starts_with (name ++ "=") f = false
             /\ starts_with ("max" ++ name ++ "=") f = false).
Proof.
  intros Hwf Hname He HM Hm Hne.
  assert (Htruthy : str_truthy (min_text w name) = true)
    by (rewrite Hm; destruct v; [contradiction | reflexivity]).
  assert (Hfs : param_fields w name = ["min" ++ name ++ "=" ++ v])
    by (unfold param_fields; now rewrite He, HM, Htruthy, Hm).
  assert (Hc : contribution w name = "min" ++ name ++ "=" ++ v ++ "&")
    by (unfold contribution; rewrite Hfs; cbn [join_fields];
        now rewrite !append_assoc).
  assert (Hin : In ("min" ++ name ++ "=" ++ v) (all_fields w param_names)).
  { apply in_all_fields. exists name. split; [exact Hname|].
    rewrite Hfs. now left. }
  pose proof Hwf as [Hke [Hkm HkM]].
  split.
  { intros query_tail. rewrite <- Hc. apply query_multi_body_spec.
    - now rewrite Hke.
    - now rewrite Hkm.
    - now rewrite HkM. }
  exists (join_fields (all_fields w param_names)).
  split; [exact (query_multi_tail_spec w Hwf)|].
  split.
  { destruct (query_multi_tail_around w name Hwf Hname)
      as [before [later [pre [post [Hs [Hpre [Hpost Ht]]]]]]].
    exists before, later, pre, post. repeat split; try assumption.
    rewrite (query_multi_tail_spec w Hwf), Hc in Ht. now injection Ht. }
  split; [exact (in_join_contains _ _ Hin)|].
  intros Hamp. rewrite (fields_of_tail_read w Hamp).
  split; [apply in_or_app; now left|].
  destruct (param_name_chars name Hname) as [Hq _].
  intros f Hf. split.
  - destruct (starts_with (name ++ "=") f) eqn:Hs; [|reflexivity].
    exfalso.
    destruct (field_key_cases w _ f Hf Hq Hs) as [n [Hn Hcase]].
    destruct Hcase as [[Ht E]|[[_ [_ E]]|[_ [_ E]]]].
    + subst n. rewrite He in Ht. discriminate.
    + symmetry in E.
      exact (range_key_not_name "min" n name (or_introl eq_refl) Hn Hname E).
    + symmetry in E.
      exact (range_key_not_name "max" n name (or_intror eq_refl) Hn Hname E).
  - destruct (starts_with ("max" ++ name ++ "=") f) eqn:Hs; [|reflexivity].
    exfalso. rewrite <- append_assoc in Hs.
    assert (Hp : has_char equals_sign ("max" ++ name) = false)
      by (now rewrite has_char_app, Hq).
    destruct (field_key_cases w _ f Hf Hp Hs) as [n [Hn Hcase]].
    destruct Hcase as [[_ E]|[[_ [_ E]]|[_ [Ht E]]]].
    + exact (range_key_not_name "max" name n (or_intror eq_refl) Hname Hn E).
    + discriminate.
    + injection E as E. subst n. rewrite HM in Ht. discriminate.
Qed.

Example query_multi_tail_min_beside_unread :
  query_multi_tail form_min_beside_unread = inr "participants=3&minprice=1&".
Proof. reflexivity. Qed.

Lemma min_only_query_witness :
  no_amp_interpolated form_min_beside_unread = true
  /\ min_text form_min_beside_unread "participants" = "x&"
  /\ (forall query_tail,
        query_multi_body form_min_beside_unread query_tail "price"
        = inr (query_tail ++ "min" ++ "price" ++ "=" ++ "1" ++ "&"))
  /\ exists t,
    query_multi_tail form_min_beside_unread = inr t
    /\ (exists before later pre post,
          param_names = (before ++ "price" :: later)%list
          /\ err_for before (query_multi_body form_min_beside_unread) "" = inr pre
          /\ err_for later (query_multi_body form_min_beside_unread) "" = inr post
          /\ t = pre ++ ("min" ++ "price" ++ "=" ++ "1" ++ "&") ++ post)
    /\ contains t ("min" ++ "price" ++ "=" ++ "1")
    /\ (no_amp_interpolated form_min_beside_unread = true ->
        In ("min" ++ "price" ++ "=" ++ "1") (fields t)
        /\ forall f, In f (fields t) ->
             starts_with ("price" ++ "=") f = false
             /\ starts_with ("max" ++ "price" ++ "=") f = false).
Proof.
  split; [reflexivity|]. split; [reflexivity|].
  apply (min_only_query form_min_beside_unread "price" "1").
  - repeat split.
  - in_list.
  - reflexivity.
  - reflexivity.
  - reflexivity.
  - discriminate.
Defined.

(** C7, as stated, fails: on the form as [__init__] leaves it no parameter
    contributes, the loop leaves [query_tail] empty, and the string handed to
    [_query] ends with the question mark, not with a separator of the loop. *)
Lemma trailing_separator_counterexample :
  well_formed __init__
  /\ query_multi_tail __init__ = inr ""
  /\ last_char "" = None
  /\ query_multi_url __init__ = inr "http://bored.api.lewagon.com/api/activity/?"
  /\ last_char "http://bored.api.lewagon.com/api/activity/?" = Some "?"%char.
Proof. repeat split. Qed.

(** C7, amended: whenever at least one parameter contributes (one of the
    fields the builder reads for it is non-empty), the built query string
    ends with the separator [&] the loop appended last, and so does the URL
    handed to [_query]. *)
Theorem query_multi_trailing_separator (w : BoredApiWidget) :
  well_formed w ->
  existsb (contributes w) param_names = true ->
  exists t,
    query_multi_tail w = inr t
    /\ last_char t = Some amp
    /\ query_multi_url w = inr (BORED_API_URL ++ "?" ++ t)
    /\ last_char (BORED_API_URL ++ "?" ++ t) = Some amp.
Proof.
  intros Hwf Hc.
  apply existsb_exists in Hc as [n [Hn Hc]].
  assert (Hnil : all_fields w param_names <> []).
  { intros E. assert (Hp : param_fields w n = []).
    { destruct (param_fields w n) as [|f fs] eqn:Ef; [reflexivity|].
      assert (Hin : In f (all_fields w param_names))
        by (apply in_all_fields; exists n; rewrite Ef; split; [exact Hn | now left]).
      rewrite E in Hin. destruct Hin. }
    apply param_fields_nil in Hp. congruence. }
  destruct (join_fields_trailing _ Hnil) as [s Hs].
  exists (join_fields (all_fields w param_names)).
  unfold query_multi_url. rewrite (query_multi_tail_spec w Hwf).
  repeat split.
  - rewrite Hs. apply last_char_app_amp.
  - rewrite Hs, <- !append_assoc. apply last_char_app_amp.
Qed.

Lemma query_multi_trailing_separator_witness :
  exists t,
    query_multi_tail form_min_price = inr t
    /\ last_char t = Some amp
    /\ query_multi_url form_min_price = inr (BORED_API_URL ++ "?" ++ t)
    /\ last_char (BORED_API_URL ++ "?" ++ t) = Some amp.
Proof.
  apply (query_multi_trailing_separator form_min_price).
  - repeat split.
  - reflexivity.
Defined.

(** C10: whatever the fields hold, the built query string is the
    contribution of [type], then of [participants], then of [price], then of
    [accessibility]; a parameter's contribution is its exact field alone, or
    else its min field and then its max field, each only when filled in. *)
Theorem query_multi_fixed_order (w : BoredApiWidget) :
  well_formed w ->
  query_multi_tail w
  = inr (contribution w "type" ++ contribution w "participants"
         ++ contribution w "price" ++ contribution w "accessibility").
Proof.
  intros Hwf. rewrite (query_multi_tail_spec w Hwf).
  unfold all_fields, param_names, contribution. cbn [flat_map].
  rewrite app_nil_r, !join_fields_app. reflexivity.
Qed.

Lemma query_multi_fixed_order_witness :
  query_multi_tail form_mixed
  = inr (contribution form_mixed "type" ++ contribution form_mixed "participants"
         ++ contribution form_mixed "price"
         ++ contribution form_mixed "accessibility").
Proof.
  apply (query_multi_fixed_order form_mixed). repeat split.
Defined.


(* ================================================================== *)
(** ** More on the form and the builder *)

(** Lookup after a write: the written key gives the new value, any other
    key what it gave before. *)
Lemma dict_get_set {V : Type} (d : dict V) (k k' : string) (v : V) :
  dict_get (dict_set d k v) k'
  = if String.eqb k k' then Some v else dict_get d k'.
Proof.
  induction d as [|[k0 v0] d IH]; simpl.
  - reflexivity.
  - destruct (String.eqb_spec k0 k) as [->|Hne]; simpl.
    + destruct (String.eqb k k'); reflexivity.
    + rewrite IH.
      destruct (String.eqb_spec k0 k') as [->|Hne'].
      * destruct (String.eqb_spec k k') as [->|_]; [contradiction | reflexivity].
      * reflexivity.
Qed.

Lemma text_of_set (d : dict string) (k k' v : string) :
  text_of (dict_set d k v) k' = if String.eqb k k' then v else text_of d k'.
Proof.
  unfold text_of. rewrite dict_get_set. now destruct (String.eqb k k').
Qed.

(** A dictionary with the keys of [__init__] is four entries long. *)
Lemma dict_keys_param_names {V : Type} (d : dict V) :
  dict_keys d = param_names ->
  exists a b c e,
    d = [("type", a); ("participants", b); ("price", c); ("accessibility", e)].
Proof.
  destruct d as [|[k1 a] [|[k2 b] [|[k3 c] [|[k4 e] [|]]]]]; try discriminate.
  intros H. injection H as -> -> -> ->. now exists a, b, c, e.
Qed.

(** X1: on a widget the program can hold, [_clear] raises nothing and puts
    the form back as [__init__] made it: the key and every exact, min and
    max text are empty.  The output layout and the log are as they were. *)
Theorem _clear_resets_form (s : world) :
  well_formed (self s) ->
  _clear s = (inr tt, mkWorld (set_output __init__ (output_layout (self s))) (log s)).
Proof.
  intros [He [Hm HM]]. destruct s as [[key de dm dM out] l]. simpl in *.
  destruct (dict_keys_param_names _ He) as [a1 [a2 [a3 [a4 ->]]]].
  destruct (dict_keys_param_names _ Hm) as [b1 [b2 [b3 [b4 ->]]]].
  destruct (dict_keys_param_names _ HM) as [c1 [c2 [c3 [c4 ->]]]].
  reflexivity.
Qed.

Lemma _clear_resets_form_witness :
  _clear (mkWorld form_mixed [])
  = (inr tt, mkWorld (set_output __init__ (output_layout form_mixed)) []).
Proof.
  apply (_clear_resets_form (mkWorld form_mixed [])). repeat split.
Defined.

Lemma in_range_row_names (name : string) :
  In name range_row_names -> In name param_names /\ name <> "type".
Proof.
  intros H. in_cases H; (split; [in_list | discriminate]).
Qed.

(** What every reachable widget keeps: the keys of [__init__], and empty
    range texts for [type]. *)
Lemma reachable_invariant (w : BoredApiWidget) :
  reachable w ->
  well_formed w /\ min_text w "type" = "" /\ max_text w "type" = "".
Proof.
  induction 1 as [|v w _ IH|name v w Hn _ IH|name v w Hn _ IH|name v w Hn _ IH
                 |w l _ IH|items w _ IH].
  - repeat split.
  - exact IH.
  - destruct IH as [Hwf [Hm HM]].
    split; [exact (well_formed_type_exact name v w Hn Hwf) | now split].
  - destruct IH as [Hwf [Hm HM]].
    destruct (in_range_row_names name Hn) as [Hp Hne].
    split; [exact (well_formed_type_min name v w Hp Hwf)|].
    split; [|exact HM].
    unfold min_text. cbn [type_min d_multi_input_min_fields].
    rewrite text_of_set.
    destruct (String.eqb_spec name "type") as [E|_]; [contradiction | exact Hm].
  - destruct IH as [Hwf [Hm HM]].
    destruct (in_range_row_names name Hn) as [Hp Hne].
    split; [exact (well_formed_type_max name v w Hp Hwf)|].
    split; [exact Hm|].
    unfold max_text. cbn [type_max d_multi_input_max_fields].
    rewrite text_of_set.
    destruct (String.eqb_spec name "type") as [E|_]; [contradiction | exact HM].
  - destruct IH as [Hwf _].
    rewrite (_clear_resets_form (mkWorld w l) Hwf). repeat split.
  - exact IH.
Qed.

(** X2: on every widget a user can bring about, the loop of [query_multi]
    finds each name in all three dictionaries: it raises no [KeyError] and
    gives a query string. *)
Theorem reachable_query_multi_returns (w : BoredApiWidget) :
  reachable w ->
  exists query_tail,
    query_multi_tail w = inr query_tail
    /\ query_multi_url w = inr (BORED_API_URL ++ "?" ++ query_tail).
Proof.
  intros H. destruct (reachable_invariant w H) as [Hwf _].
  exists (join_fields (all_fields w param_names)).
  unfold query_multi_url. now rewrite (query_multi_tail_spec w Hwf).
Qed.

Lemma form_mixed_reachable : reachable form_mixed.
Proof.
  unfold form_mixed.
  repeat first
    [ apply reach_init
    | apply reach_exact; [in_list|]
    | apply reach_min; [in_list|]
    | apply reach_max; [in_list|] ].
Qed.

Lemma reachable_query_multi_returns_witness :
  exists query_tail,
    query_multi_tail form_mixed = inr query_tail
    /\ query_multi_url form_mixed = inr (BORED_API_URL ++ "?" ++ query_tail).
Proof.
  apply (reachable_query_multi_returns form_mixed). apply form_mixed_reachable.
Defined.

(** The rows [__init__] puts on the form: an exact row for each of the four
    names, a range row for all but [type]; its dictionaries are those of
    [__init__]. *)
Lemma init_rows :
  fst __init___with_rows = __init__
  /\ exact_rows (snd __init___with_rows) = param_names
  /\ range_row_names = ["participants"; "price"; "accessibility"].
Proof. repeat split. Qed.

(** The range row is on the form exactly for the names registered with
    [allow_range]. *)
Lemma range_rows_add (input_name : string) (allow_range : bool)
    (f : BoredApiWidget * list form_row) :
  range_rows (snd (_add_param_entry_with_rows input_name allow_range f))
  = (range_rows (snd f) ++ if allow_range then [input_name] else [])%list.
Proof.
  assert (H : forall rows more,
             range_rows (rows ++ more) = (range_rows rows ++ range_rows more)%list).
  { induction rows as [|[n|n] rows IH]; intros more; cbn [app range_rows];
      [reflexivity | apply IH | now rewrite IH]. }
  unfold _add_param_entry_with_rows. destruct allow_range; cbn [snd].
  - rewrite !H. cbn [range_rows]. now rewrite app_nil_r.
  - rewrite H. cbn [range_rows]. reflexivity.
Qed.

(** X3: [type] is queried by exact value only.  [__init__] registers it
    with [allow_range=False], so its range row is not on the form; on every
    widget a user can bring about its min and max texts are empty, and the
    pass of the loop of [query_multi] for [type] appends [type=value&] when
    the exact text is not empty and nothing otherwise. *)
Theorem type_is_exact_only (w : BoredApiWidget) :
  reachable w ->
  ~ In "type" (range_rows (snd __init___with_rows))
  /\ min_text w "type" = "" /\ max_text w "type" = ""
  /\ forall query_tail,
       query_multi_body w query_tail "type"
       = inr (query_tail
              ++ if str_truthy (exact_text w "type")
                 then "type=" ++ exact_text w "type" ++ "&"
                 else "").
Proof.
  intros H. destruct (reachable_invariant w H) as [[He [Hk HK]] [Hm HM]].
  split.
  { intros Hin. destruct (in_range_row_names "type" Hin) as [_ Hne].
    now apply Hne. }
  split; [exact Hm|]. split; [exact HM|].
  intros query_tail.
  rewrite (query_multi_body_spec w query_tail "type").
  - unfold contribution, param_fields. rewrite Hm, HM.
    destruct (str_truthy (exact_text w "type")); [|reflexivity].
    cbn [join_fields]. now rewrite !append_assoc.
  - rewrite He. in_list.
  - rewrite Hk. in_list.
  - rewrite HK. in_list.
Qed.

Lemma type_is_exact_only_witness :
  ~ In "type" (range_rows (snd __init___with_rows))
  /\ min_text form_mixed "type" = "" /\ max_text form_mixed "type" = ""
  /\ forall query_tail,
       query_multi_body form_mixed query_tail "type"
       = inr (query_tail
              ++ if str_truthy (exact_text form_mixed "type")
                 then "type=" ++ exact_text form_mixed "type" ++ "&"
                 else "").
Proof.
  apply (type_is_exact_only form_mixed). apply form_mixed_reachable.
Defined.

Lemma param_fields_ext (w w' : BoredApiWidget) (n : string) :
  exact_text w' n = exact_text w n ->
  (str_truthy (exact_text w n) = false ->
   min_text w' n = min_text w n /\ max_text w' n = max_text w n) ->
  param_fields w' n = param_fields w n.
Proof.
  intros He Hr. unfold param_fields. rewrite He.
  destruct (str_truthy (exact_text w n)); [reflexivity|].
  destruct (Hr eq_refl) as [-> ->]. reflexivity.
Qed.

Lemma all_fields_ext (w w' : BoredApiWidget) (names : list string) :
  (forall n, param_fields w' n = param_fields w n) ->
  all_fields w' names = all_fields w names.
Proof.
  intros H. unfold all_fields.
  induction names as [|n names IH]; [reflexivity|].
  cbn [flat_map]. now rewrite H, IH.
Qed.

(** X4: while the exact field of a parameter holds a value, what is typed
    into its min or its max field changes nothing in the query string. *)
Theorem range_ignored_under_exact (w : BoredApiWidget) (name v : string) :
  well_formed w ->
  In name param_names ->
  exact_text w name <> "" ->
  query_multi_tail (type_min name v w) = query_multi_tail w
  /\ query_multi_tail (type_max name v w) = query_multi_tail w.
Proof.
  intros Hwf Hn He.
  assert (Ht : str_truthy (exact_text w name) = true)
    by (destruct (exact_text w name); [contradiction | reflexivity]).
  rewrite (query_multi_tail_spec _ (well_formed_type_min name v w Hn Hwf)).
  rewrite (query_multi_tail_spec _ (well_formed_type_max name v w Hn Hwf)).
  rewrite (query_multi_tail_spec _ Hwf).
  split; f_equal; f_equal; apply all_fields_ext; intros n;
    apply param_fields_ext; try reflexivity; intros Hf.
  - split; [|reflexivity].
    unfold min_text. cbn [type_min d_multi_input_min_fields].
    rewrite text_of_set.
    destruct (String.eqb_spec name n) as [<-|_]; [congruence | reflexivity].
  - split; [reflexivity|].
    unfold max_text. cbn [type_max d_multi_input_max_fields].
    rewrite text_of_set.
    destruct (String.eqb_spec name n) as [<-|_]; [congruence | reflexivity].
Qed.

Lemma range_ignored_under_exact_witness :
  query_multi_tail (type_min "accessibility" "0.7" form_mixed)
  = query_multi_tail form_mixed
  /\ query_multi_tail (type_max "accessibility" "0.7" form_mixed)
     = query_multi_tail form_mixed.
Proof.
  apply (range_ignored_under_exact form_mixed "accessibility" "0.7").
  - repeat split.
  - in_list.
  - discriminate.
Defined.

(** A key without an equals sign is read back whole, with its value. *)
Lemma split_field_key (k v : string) :
  has_char equals_sign k = false -> split_field (k ++ "=" ++ v) = (k, v).
Proof.
  induction k as [|c k IH]; cbn [append split_field has_char]; intros H.
  - reflexivity.
  - apply orb_false_iff in H as [Hc Hk].
    rewrite Hc. cbn [append] in IH. now rewrite (IH Hk).
Qed.

Lemma param_fields_pairs (w : BoredApiWidget) (n : string) :
  param_fields w n
  = map (fun kv => fst kv ++ "=" ++ snd kv) (param_pairs w n).
Proof.
  unfold param_fields, param_pairs.
  destruct (str_truthy (exact_text w n)); [reflexivity|].
  destruct (str_truthy (min_text w n)), (str_truthy (max_text w n));
    cbn [app map fst snd]; now rewrite ?append_assoc.
Qed.

Lemma split_param_fields (w : BoredApiWidget) (n : string) :
  In n param_names ->
  map split_field (param_fields w n) = param_pairs w n.
Proof.
  intros Hn. destruct (param_name_chars n Hn) as [Hq _].
  assert (Hmin : has_char equals_sign ("min" ++ n) = false)
    by (now rewrite has_char_app, Hq).
  assert (Hmax : has_char equals_sign ("max" ++ n) = false)
    by (now rewrite has_char_app, Hq).
  unfold param_fields, param_pairs.
  destruct (str_truthy (exact_text w n)).
  - cbn [map]. now rewrite (split_field_key _ _ Hq).
  - destruct (str_truthy (min_text w n)), (str_truthy (max_text w n));
      cbn [app map];
      rewrite <- ?(append_assoc "min" n), <- ?(append_assoc "max" n);
      rewrite ?(split_field_key _ _ Hmin), ?(split_field_key _ _ Hmax);
      reflexivity.
Qed.

(** X5: the query string can be read back.  When no typed text holds the
    separator, splitting the built string at [&] and each field at its first
    [=] gives the keys and the values of the form, in the order of the
    parameters, followed by the empty field after the last separator. *)
Theorem query_string_reads_back (w : BoredApiWidget) :
  well_formed w ->
  no_amp_typed w = true ->
  exists query_tail,
    query_multi_tail w = inr query_tail
    /\ map split_field (fields query_tail) = (typed_pairs w ++ [("", "")])%list.
Proof.
  intros Hwf Hamp.
  exists (join_fields (all_fields w param_names)).
  split; [exact (query_multi_tail_spec w Hwf)|].
  rewrite (fields_of_tail w Hamp), map_app. cbn [map split_field].
  f_equal. unfold all_fields, typed_pairs.
  assert (H : forall names, (forall n, In n names -> In n param_names) ->
            map split_field (flat_map (param_fields w) names)
            = flat_map (param_pairs w) names).
  { induction names as [|n names IH]; intros Hin; [reflexivity|].
    cbn [flat_map]. rewrite map_app, IH, split_param_fields.
    - reflexivity.
    - apply Hin. now left.
    - intros m Hm. apply Hin. now right. }
  apply H. auto.
Qed.

Lemma query_string_reads_back_witness :
  exists query_tail,
    query_multi_tail form_mixed = inr query_tail
    /\ map split_field (fields query_tail)
       = (typed_pairs form_mixed ++ [("", "")])%list.
Proof.
  apply (query_string_reads_back form_mixed).
  - repeat split.
  - reflexivity.
Defined.

Example typed_pairs_mixed :
  typed_pairs form_mixed
  = [("type", "social"); ("minparticipants", "2"); ("maxparticipants", "4");
     ("maxprice", "0.5"); ("accessibility", "0.2")].
Proof. reflexivity. Qed.

Lemma dict_keys_set_absent {V : Type} (d : dict V) (k : string) (v : V) :
  ~ In k (dict_keys d) -> dict_keys (dict_set d k v) = (dict_keys d ++ [k])%list.
Proof.
  induction d as [|[k' v'] d IH]; simpl; intros H; [reflexivity|].
  destruct (String.eqb_spec k' k) as [->|Hne].
  - destruct H. now left.
  - simpl. f_equal. apply IH. intros Hin. apply H. now right.
Qed.

(** X15: [_add_param_entry] on a name that is not registered yet puts it
    last in each of the three dictionaries, so last in the loop of
    [query_multi], with empty texts; the texts of the other names stay. *)
Theorem _add_param_entry_appends (name : string) (w : BoredApiWidget) :
  ~ In name (dict_keys (d_multi_input_fields w)) ->
  ~ In name (dict_keys (d_multi_input_min_fields w)) ->
  ~ In name (dict_keys (d_multi_input_max_fields w)) ->
  let w' := _add_param_entry name w in
  dict_keys (d_multi_input_fields w')
  = (dict_keys (d_multi_input_fields w) ++ [name])%list
  /\ dict_keys (d_multi_input_min_fields w')
     = (dict_keys (d_multi_input_min_fields w) ++ [name])%list
  /\ dict_keys (d_multi_input_max_fields w')
     = (dict_keys (d_multi_input_max_fields w) ++ [name])%list
  /\ exact_text w' name = "" /\ min_text w' name = "" /\ max_text w' name = ""
  /\ forall n, n <> name ->
       exact_text w' n = exact_text w n
       /\ min_text w' n = min_text w n
       /\ max_text w' n = max_text w n.
Proof.
  intros He Hm HM. cbn zeta.
  unfold exact_text, min_text, max_text, _add_param_entry.
  cbn [d_multi_input_fields d_multi_input_min_fields d_multi_input_max_fields].
  rewrite !dict_keys_set_absent by assumption.
  repeat split; rewrite text_of_set;
    first [ now rewrite String.eqb_refl
          | destruct (String.eqb_spec name n) as [E|_];
            [symmetry in E; contradiction | reflexivity] ].
Qed.

Lemma _add_param_entry_appends_witness :
  let w := type_exact "type" "social" (_add_param_entry "type" (mkWidget "" [] [] [] [])) in
  let w' := _add_param_entry "participants" w in
  dict_keys (d_multi_input_fields w')
  = (dict_keys (d_multi_input_fields w) ++ ["participants"])%list
  /\ dict_keys (d_multi_input_min_fields w')
     = (dict_keys (d_multi_input_min_fields w) ++ ["participants"])%list
  /\ dict_keys (d_multi_input_max_fields w')
     = (dict_keys (d_multi_input_max_fields w) ++ ["participants"])%list
  /\ exact_text w' "participants" = "" /\ min_text w' "participants" = ""
  /\ max_text w' "participants" = ""
  /\ forall n, n <> "participants" ->
       exact_text w' n = exact_text w n
       /\ min_text w' n = min_text w n
       /\ max_text w' n = max_text w n.
Proof.
  apply (_add_param_entry_appends "participants"
           (type_exact "type" "social"
              (_add_param_entry "type" (mkWidget "" [] [] [] [])))).
  - intros [H|[]]. discriminate H.
  - intros [H|[]]. discriminate H.
  - intros [H|[]]. discriminate H.
Defined.

(* ================================================================== *)
(** ** The slots step by step *)

Example int_str_500 : int_str 500 = "500".
Proof. reflexivity. Qed.

Example int_str_negative : int_str (-3) = "-3".
Proof. reflexivity. Qed.

Lemma requests_made_app (l1 l2 : list event) :
  requests_made (l1 ++ l2) = (requests_made l1 ++ requests_made l2)%list.
Proof.
  induction l1 as [|[url|] l1 IH]; simpl; [reflexivity | now rewrite IH | exact IH].
Qed.

Lemma json_calls_app (l1 l2 : list event) :
  json_calls (l1 ++ l2) = json_calls l1 + json_calls l2.
Proof.
  induction l1 as [|[url|] l1 IH]; simpl; [reflexivity | exact IH | now rewrite IH].
Qed.

(** The outer loop of [_cleanup] stops on an empty layout, whatever it
    started from. *)
Lemma _cleanup_loop_empties (l : list item) : fst (_cleanup_loop l) = [].
Proof.
  induction l as [|child rest IH]; [reflexivity|].
  simpl. destruct (_cleanup_loop rest) as [left deleted].
  destruct child; exact IH.
Qed.

(** Every label that sits in the layout itself goes to [deleteLater]. *)
Lemma _cleanup_loop_deletes (l : list item) (text : string) :
  In (Widget text) l -> In text (snd (_cleanup_loop l)).
Proof.
  induction l as [|child rest IH]; intros H; [contradiction|].
  simpl. destruct (_cleanup_loop rest) as [left deleted]. simpl in IH.
  destruct H as [->|H].
  - now left.
  - destruct child; simpl; [right | apply in_or_app; right]; exact (IH H).
Qed.

Lemma _cleanup_run (s : world) : _cleanup s = (inr tt, cleared s).
Proof.
  unfold _cleanup, bind, get_self, put_output, cleared. simpl.
  now rewrite _cleanup_loop_empties.
Qed.

Lemma cleared_idem (s : world) : cleared (cleared s) = cleared s.
Proof. reflexivity. Qed.

Lemma _display_error_run (message : string) (s : world) :
  _display_error message s
  = (inr tt,
     mkWorld (set_output (self s) (output_layout (self s) ++ [error_label message]))
       (log s)).
Proof. reflexivity. Qed.

(** The loop of [_query] over the items adds the two labels of each row at
    the bottom, in the order of the items. *)
Lemma for_each_addRow (d : list (string * pyval)) :
  forall s,
    for_each d (fun kv : string * pyval =>
      let (key, value) := kv in addRow (key ++ ":") (py_str value)) s
    = (inr tt,
       mkWorld (set_output (self s)
                  (output_layout (self s) ++ row_items (result_rows d)))
         (log s)).
Proof.
  induction d as [|[k v] d IH]; intros s.
  - simpl. unfold ret. rewrite app_nil_r. now destruct s as [[] ?].
  - cbn [for_each]. unfold bind at 1. unfold addRow at 1.
    unfold bind at 1, get_self, put_output. rewrite IH. cbn.
    now rewrite <- app_assoc.
Qed.

(** [_query] step by step, on each way through it. *)
Lemma _query_get_raises (query : string) (e : exn) (s : world) :
  requests_get query = inl e ->
  _query query s = (inl e, mkWorld (self s) (log s ++ [EvGet query])).
Proof.
  intros H. unfold _query, bind, record, lift. cbn. now rewrite H.
Qed.

Lemma _query_not_200 (query : string) (response : Response) (s : world) :
  requests_get query = inr response ->
  (status_code response =? 200)%Z = false ->
  _query query s
  = (inr tt,
     mkWorld
       (set_output (self s)
          (output_layout (self s)
           ++ [error_label ("API request failed: " ++ int_str (status_code response))]))
       (log s ++ [EvGet query])).
Proof.
  intros H Hs. unfold _query, bind, record, lift. cbn. rewrite H, Hs. reflexivity.
Qed.

Lemma _query_200 (query : string) (response : Response) (s : world) :
  requests_get query = inr response ->
  (status_code response =? 200)%Z = true ->
  _query query s
  = (d_response <- lift (json response) ;;
     error_message <- lift (py_get d_response "error") ;;
     if py_truthy error_message then
       _display_error ("API request returned error: " ++ py_str error_message)
     else
       items <- lift (py_items d_response) ;;
       for_each items (fun kv : string * pyval =>
         let (key, value) := kv in addRow (key ++ ":") (py_str value)))%slot
      (mkWorld (self s) (log s ++ [EvGet query; EvJson])).
Proof.
  intros H Hs. unfold _query, bind at 1 2 3, record, lift at 1. cbn.
  rewrite H, Hs. cbn. now rewrite <- app_assoc.
Qed.

Lemma set_output_nothing (w : BoredApiWidget) :
  set_output w (output_layout w ++ []) = w.
Proof. destruct w. unfold set_output. simpl. now rewrite app_nil_r. Qed.

(** What a call of [_query] leaves behind: one logged request, at most one
    decoding of the body, and at the bottom of the output layout nothing, one
    error label, or the rows of the decoded body. *)
Inductive shown : list item -> Prop :=
| shown_nothing : shown []
| shown_error (message : string) : shown [error_label message]
| shown_rows (d : list (string * pyval)) : shown (row_items (result_rows d)).

Lemma _query_effect (query : string) (s : world) :
  exists new more,
    after (_query query) s
    = mkWorld (set_output (self s) (output_layout (self s) ++ new))
        (log s ++ EvGet query :: more)
    /\ shown new
    /\ requests_made more = [].
Proof.
  unfold after.
  destruct (requests_get query) as [e|response] eqn:Hget.
  - rewrite (_query_get_raises _ _ _ Hget). exists [], []. simpl.
    rewrite set_output_nothing. repeat split. constructor.
  - destruct (status_code response =? 200)%Z eqn:Hs.
    + rewrite (_query_200 _ _ _ Hget Hs). unfold bind, lift.
      destruct (json response) as [e|d_response]; cbn [snd].
      { exists [], [EvJson]. cbn [self log].
        rewrite set_output_nothing. repeat split. constructor. }
      destruct (py_get d_response "error") as [e|error_message]; cbn [snd].
      { exists [], [EvJson]. cbn [self log].
        rewrite set_output_nothing. repeat split. constructor. }
      destruct (py_truthy error_message).
      { rewrite _display_error_run. eexists [_], [EvJson].
        repeat split. constructor. }
      destruct (py_items d_response) as [e|items]; cbn [snd].
      { exists [], [EvJson]. cbn [self log].
        rewrite set_output_nothing. repeat split. constructor. }
      rewrite for_each_addRow. eexists _, [EvJson].
      repeat split. constructor.
    + rewrite (_query_not_200 _ _ _ Hget Hs). eexists [_], [].
      repeat split. constructor.
Qed.

(** [_query] makes exactly one request, to the URL it is given. *)
Lemma _query_requests (query : string) (s : world) :
  requests_made (log (after (_query query) s))
  = (requests_made (log s) ++ [query])%list.
Proof.
  destruct (_query_effect query s) as [new [more [E [_ Hmore]]]].
  rewrite E. cbn [log]. rewrite requests_made_app. simpl. now rewrite Hmore.
Qed.

Lemma query_random_run (s : world) :
  query_random s = _query BORED_API_URL (cleared s).
Proof. unfold query_random, bind. now rewrite _cleanup_run. Qed.

Lemma query_key_run (s : world) :
  query_key s
  = (if negb (str_truthy (key_input_field (self s)))
     then _display_error "No key provided"
     else _query (BORED_API_URL ++ "?key=" ++ key_input_field (self s)))
      (cleared s).
Proof. unfold query_key, bind. now rewrite _cleanup_run. Qed.

Lemma query_multi_run (s : world) :
  query_multi s
  = match query_multi_tail (self s) with
    | inr query_tail => _query (BORED_API_URL ++ "?" ++ query_tail) (cleared s)
    | inl e => (inl e, cleared s)
    end.
Proof.
  unfold query_multi, bind. rewrite _cleanup_run.
  unfold get_self, lift.
  change (query_multi_tail (self (cleared s)))
    with (query_multi_tail (self s)).
  now destruct (query_multi_tail (self s)).
Qed.

(** A form with nothing filled in contributes no field. *)
Lemma all_fields_empty_form (w : BoredApiWidget) :
  existsb (contributes w) param_names = false ->
  all_fields w param_names = [].
Proof.
  intros H. unfold all_fields.
  induction param_names as [|n names IH]; [reflexivity|].
  cbn [existsb flat_map] in *. apply orb_false_iff in H as [Hn Hrest].
  apply param_fields_nil in Hn. now rewrite Hn, (IH Hrest).
Qed.

(* ================================================================== *)
(** ** Claims on the slots *)

(** C3: [query_key] on an empty key leaves the label of the error
    [No key provided] as the only item of the output layout and makes no
    request (the log is as it was); on a non-empty key [k] it calls [_query]
    on the base URL followed by [?key=k], which is the one request it
    makes. *)
Theorem query_key_validation (s : world) (key : string) :
  key_input_field (self s) = key ->
  (key = "" ->
   query_key s
   = (inr tt,
      mkWorld (set_output (self s) [error_label "No key provided"]) (log s)))
  /\ (key <> "" ->
      query_key s = _query (BORED_API_URL ++ "?key=" ++ key) (cleared s)
      /\ requests_made (log (after query_key s))
         = (requests_made (log s) ++ [(BORED_API_URL ++ "?key=" ++ key)%string])%list).
Proof.
  intros Hkey. split; intros Hk.
  - rewrite query_key_run, Hkey, Hk. reflexivity.
  - assert (E : query_key s = _query (BORED_API_URL ++ "?key=" ++ key) (cleared s)).
    { rewrite query_key_run, Hkey.
      destruct key; [contradiction | reflexivity]. }
    split; [exact E|].
    unfold after. rewrite E. apply (_query_requests _ (cleared s)).
Qed.

(** C4: when the status code of the response is not 200, [_query] shows the
    error [API request failed: <status>] and returns, and [response.json()]
    is not called: the log gains the request and nothing else, whatever the
    body is. *)
Theorem query_failed_status (query : string) (response : Response) (s : world) :
  requests_get query = inr response ->
  status_code response <> 200%Z ->
  _query query s
  = (inr tt,
     mkWorld
       (set_output (self s)
          (output_layout (self s)
           ++ [error_label ("API request failed: " ++ int_str (status_code response))]))
       (log s ++ [EvGet query]))
  /\ json_calls (log (after (_query query) s)) = json_calls (log s).
Proof.
  intros Hget Hs. apply Z.eqb_neq in Hs.
  unfold after. rewrite (_query_not_200 _ _ _ Hget Hs). split; [reflexivity|].
  cbn [snd log]. rewrite json_calls_app. simpl. lia.
Qed.

(** C5: when the status code is 200 and the decoded body is a dictionary
    whose [error] entry is a non-empty string [m], [_query] shows the error
    [API request returned error: m] and nothing else: no row of the body. *)
Theorem query_api_error (query : string) (response : Response) (s : world)
    (d : list (string * pyval)) (m : string) :
  requests_get query = inr response ->
  status_code response = 200%Z ->
  json response = inr (PyDict d) ->
  dict_get d "error" = Some (PyStr m) ->
  m <> "" ->
  _query query s
  = (inr tt,
     mkWorld
       (set_output (self s)
          (output_layout (self s)
           ++ [error_label ("API request returned error: " ++ m)]))
       (log s ++ [EvGet query; EvJson])).
Proof.
  intros Hget Hs Hjson Herr Hm. apply Z.eqb_eq in Hs.
  rewrite (_query_200 _ _ _ Hget Hs). unfold bind, lift.
  rewrite Hjson. cbn [py_get]. rewrite Herr. cbn [py_truthy py_str].
  destruct m; [contradiction | reflexivity].
Qed.

(** C6: when the status code is 200 and the decoded body is a dictionary
    whose [error] entry is missing or not true ([None], an empty string, a
    zero, [False], an empty list or dictionary), [_query] returns and adds
    one row per key of the body, in the order of the dictionary: the key
    (followed by a colon) and [str] of the value, a string as it is and
    anything else, [None] too, printed. *)
Theorem query_success (query : string) (response : Response) (s : world)
    (d : list (string * pyval)) :
  requests_get query = inr response ->
  status_code response = 200%Z ->
  json response = inr (PyDict d) ->
  (forall v, dict_get d "error" = Some v -> py_truthy v = false) ->
  _query query s
  = (inr tt,
     mkWorld
       (set_output (self s)
          (output_layout (self s) ++ row_items (result_rows d)))
       (log s ++ [EvGet query; EvJson]))
  /\ map fst (result_rows d) = dict_keys d
  /\ map snd (result_rows d) = map (fun kv => py_str (snd kv)) d
  /\ py_str PyNone = "None".
Proof.
  intros Hget Hs Hjson Herr. apply Z.eqb_eq in Hs.
  repeat split.
  - rewrite (_query_200 _ _ _ Hget Hs). unfold bind, lift.
    rewrite Hjson. cbn [py_get].
    destruct (dict_get d "error") as [v|] eqn:Ev.
    + rewrite (Herr v eq_refl). cbn [py_items]. apply for_each_addRow.
    + cbn [py_truthy py_items]. apply for_each_addRow.
  - unfold result_rows, dict_keys. rewrite map_map. reflexivity.
  - unfold result_rows. rewrite map_map. reflexivity.
Qed.

(** C8: each of [query_random], [query_key] and [query_multi] first empties
    the output layout, whatever it held: the slot runs as it does on an
    empty output layout, and what the layout holds afterwards is what this
    call put there, which is nothing, one error label, or the rows of one
    response. *)
Theorem queries_clear_prior_output (s : world) :
  after _cleanup s = cleared s
  /\ (query_random s = query_random (cleared s)
      /\ shown (output_layout (self (after query_random s))))
  /\ (query_key s = query_key (cleared s)
      /\ shown (output_layout (self (after query_key s))))
  /\ (query_multi s = query_multi (cleared s)
      /\ shown (output_layout (self (after query_multi s)))).
Proof.
  assert (Hq : forall query,
             shown (output_layout (self (after (_query query) (cleared s))))).
  { intros query.
    destruct (_query_effect query (cleared s)) as [new [more [E [Hnew _]]]].
    rewrite E. exact Hnew. }
  split; [unfold after; now rewrite _cleanup_run|].
  split; [|split]; split.
  - now rewrite !query_random_run.
  - unfold after. rewrite query_random_run. apply Hq.
  - now rewrite !query_key_run.
  - unfold after. rewrite query_key_run.
    destruct (negb (str_truthy (key_input_field (self s)))).
    + rewrite _display_error_run. apply shown_error.
    + apply Hq.
  - now rewrite !query_multi_run.
  - unfold after. rewrite query_multi_run.
    destruct (query_multi_tail (self s)) as [e|query_tail].
    + apply shown_nothing.
    + apply Hq.
Qed.

(** C9: [query_multi] on a form with every exact, min and max field empty
    shows no validation error: the query tail is empty, and the slot calls
    [_query] on the base URL followed by a bare question mark, which is the
    one request it makes. *)
Theorem query_multi_empty_form (s : world) :
  well_formed (self s) ->
  existsb (contributes (self s)) param_names = false ->
  query_multi_url (self s) = inr (BORED_API_URL ++ "?")
  /\ query_multi s = _query (BORED_API_URL ++ "?") (cleared s)
  /\ requests_made (log (after query_multi s))
     = (requests_made (log s) ++ [(BORED_API_URL ++ "?")%string])%list.
Proof.
  intros Hwf Hempty.
  assert (Ht : query_multi_tail (self s) = inr "")
    by (now rewrite (query_multi_tail_spec _ Hwf), (all_fields_empty_form _ Hempty)).
  assert (E : query_multi s = _query (BORED_API_URL ++ "?") (cleared s))
    by (now rewrite query_multi_run, Ht).
  repeat split.
  - unfold query_multi_url. now rewrite Ht.
  - exact E.
  - unfold after. rewrite E. apply (_query_requests _ (cleared s)).
Qed.

(* ================================================================== *)
(** ** More on the slots *)

Lemma _cleanup_child_deletes (children : list item) (text : string) :
  In text (snd (_cleanup_child children)) <-> In (Widget text) children.
Proof.
  induction children as [|c cs IH]; [simpl; split; auto|].
  cbn [_cleanup_child]. destruct (_cleanup_child cs) as [left deleted].
  cbn [snd] in IH. destruct c as [t|gs]; cbn [snd In]; split.
  - intros [->|H]; [now left | right; now apply IH].
  - intros [E|H]; [injection E as ->; now left | right; now apply IH].
  - intros H. right. now apply IH.
  - intros [E|H]; [discriminate | now apply IH].
Qed.

(** X6: how deep [_cleanup] goes.  The output layout is always left empty;
    a label is handed to [deleteLater] exactly when it sits in the layout
    itself or in a layout that is an item of it.  Labels nested deeper are
    taken out with their layout and never deleted. *)
Theorem _cleanup_deletes_two_levels (l : list item) (text : string) :
  fst (_cleanup_loop l) = []
  /\ (In text (snd (_cleanup_loop l))
      <-> In (Widget text) l
          \/ exists children, In (Layout children) l /\ In (Widget text) children).
Proof.
  split; [apply _cleanup_loop_empties|].
  induction l as [|c rest IH]; cbn [_cleanup_loop].
  - simpl. split; [contradiction|]. intros [H|[cs [H _]]]; contradiction.
  - destruct (_cleanup_loop rest) as [left deleted]. cbn [snd] in IH.
    destruct c as [t|cs]; cbn [snd]; split.
    + intros [->|H]; [left; now left|].
      apply IH in H as [H|[gs [H1 H2]]]; [left; now right|].
      right. exists gs. split; [now right | exact H2].
    + intros [[E|H]|[gs [[E|H1] H2]]].
      * injection E as ->. now left.
      * right. apply IH. now left.
      * discriminate.
      * right. apply IH. right. now exists gs.
    + intros H. apply in_app_or in H as [H|H].
      * right. exists cs. split; [now left|]. now apply _cleanup_child_deletes.
      * apply IH in H as [H|[gs [H1 H2]]]; [left; now right|].
        right. exists gs. split; [now right | exact H2].
    + intros [[E|H]|[gs [[E|H1] H2]]]; apply in_or_app.
      * discriminate.
      * right. apply IH. now left.
      * injection E as ->. left. now apply _cleanup_child_deletes.
      * right. apply IH. right. now exists gs.
Qed.

Lemma _cleanup_loop_flat (l : list item) :
  flat l = true -> map Widget (snd (_cleanup_loop l)) = l.
Proof.
  induction l as [|c rest IH]; [reflexivity|].
  cbn [flat _cleanup_loop]. destruct (_cleanup_loop rest) as [left deleted].
  destruct c as [t|cs]; [|discriminate].
  intros H. cbn [snd map] in *. now rewrite (IH H).
Qed.

Lemma row_items_flat (rows : list (string * string)) :
  flat (row_items rows) = true.
Proof. induction rows as [|r rows IH]; [reflexivity | exact IH]. Qed.

Lemma shown_flat (l : list item) : shown l -> flat l = true.
Proof. intros [|m|d]; [reflexivity | reflexivity | apply row_items_flat]. Qed.

(** What a slot leaves in the output layout. *)
Lemma slot_output_shown (q : M unit) (s : world) :
  In q slots -> shown (output_layout (self (after q s))).
Proof.
  assert (Hq : forall query,
             shown (output_layout (self (after (_query query) (cleared s))))).
  { intros query.
    destruct (_query_effect query (cleared s)) as [new [more [E [Hnew _]]]].
    rewrite E. exact Hnew. }
  intros [<-|[<-|[<-|[]]]]; unfold after.
  - rewrite query_random_run. apply Hq.
  - rewrite query_key_run.
    destruct (negb (str_truthy (key_input_field (self s)))).
    + rewrite _display_error_run. apply shown_error.
    + apply Hq.
  - rewrite query_multi_run.
    destruct (query_multi_tail (self s)) as [e|query_tail].
    + apply shown_nothing.
    + apply Hq.
Qed.

(** X7: the depth of [_cleanup] is enough for what the slots show.  After
    any of the three slots the output layout holds labels only, and the next
    [_cleanup] hands every one of them to [deleteLater], in their order. *)
Theorem slot_output_is_cleaned (q : M unit) (s : world) :
  In q slots ->
  flat (output_layout (self (after q s))) = true
  /\ map Widget (snd (_cleanup_loop (output_layout (self (after q s)))))
     = output_layout (self (after q s)).
Proof.
  intros Hq. pose proof (shown_flat _ (slot_output_shown q s Hq)) as Hf.
  split; [exact Hf | exact (_cleanup_loop_flat _ Hf)].
Qed.

(** The log of [_query]: the request, and the decoding of the body exactly
    when the request came back with status 200. *)
Lemma _query_log (query : string) (s : world) :
  log (after (_query query) s)
  = (log s ++ EvGet query ::
       match requests_get query with
       | inr response =>
           if (status_code response =? 200)%Z then [EvJson] else []
       | inl _ => []
       end)%list.
Proof.
  unfold after.
  destruct (requests_get query) as [e|response] eqn:Hget.
  - now rewrite (_query_get_raises _ _ _ Hget).
  - destruct (status_code response =? 200)%Z eqn:Hs.
    + rewrite (_query_200 _ _ _ Hget Hs). unfold bind, lift.
      destruct (json response) as [e|d_response]; [reflexivity|].
      destruct (py_get d_response "error") as [e|error_message]; [reflexivity|].
      destruct (py_truthy error_message); [reflexivity|].
      destruct (py_items d_response) as [e|items]; [reflexivity|].
      now rewrite for_each_addRow.
    + now rewrite (_query_not_200 _ _ _ Hget Hs).
Qed.

(** X8: [response.json()] is called once when [requests.get] returns a
    response with status 200, and not at all otherwise. *)
Theorem json_called_on_200_only (query : string) (s : world) :
  json_calls (log (after (_query query) s))
  = json_calls (log s)
    + match requests_get query with
      | inr response => if (status_code response =? 200)%Z then 1 else 0
      | inl _ => 0
      end.
Proof.
  rewrite _query_log, json_calls_app. cbn [json_calls]. f_equal.
  destruct (requests_get query) as [e|response]; [reflexivity|].
  now destruct (status_code response =? 200)%Z.
Qed.

(** X9: an exception of [requests.get] is not caught.  When the call
    raises, each slot that reaches [_query] lets the exception out after one
    attempt, and the output layout stays empty: the earlier results are gone
    and no error label is shown. *)
Theorem transport_failure_escapes (e : exn) (s : world) :
  (forall url, requests_get url = inl e) ->
  query_random s
  = (inl e, mkWorld (set_output (self s) []) (log s ++ [EvGet BORED_API_URL]))
  /\ (key_input_field (self s) <> "" ->
      query_key s
      = (inl e,
         mkWorld (set_output (self s) [])
           (log s ++ [EvGet (BORED_API_URL ++ "?key=" ++ key_input_field (self s))])))
  /\ (well_formed (self s) ->
      exists query_tail,
        query_multi_tail (self s) = inr query_tail
        /\ query_multi s
           = (inl e,
              mkWorld (set_output (self s) [])
                (log s ++ [EvGet (BORED_API_URL ++ "?" ++ query_tail)]))).
Proof.
  intros Hnet. split; [|split].
  - rewrite query_random_run. now rewrite (_query_get_raises _ e _ (Hnet _)).
  - intros Hk. rewrite query_key_run.
    destruct (key_input_field (self s)) eqn:E; [contradiction|].
    cbn [str_truthy negb]. now rewrite (_query_get_raises _ e _ (Hnet _)).
  - intros Hwf. exists (join_fields (all_fields (self s) param_names)).
    split; [exact (query_multi_tail_spec _ Hwf)|].
    rewrite query_multi_run, (query_multi_tail_spec _ Hwf).
    now rewrite (_query_get_raises _ e _ (Hnet _)).
Qed.

(** X10: a body that cannot be used is not caught either.  With status 200,
    when [response.json()] raises, or gives a value that is not a
    dictionary (on which [get] raises [AttributeError]), [_query] lets the
    exception out and shows nothing. *)
Theorem unusable_body_escapes (query : string) (response : Response) (s : world) :
  requests_get query = inr response ->
  status_code response = 200%Z ->
  (forall d, json response <> inr (PyDict d)) ->
  _query query s
  = (inl match json response with
         | inl e => e
         | inr _ => AttributeError "get"
         end,
     mkWorld (self s) (log s ++ [EvGet query; EvJson])).
Proof.
  intros Hget Hs Hd. apply Z.eqb_eq in Hs.
  rewrite (_query_200 _ _ _ Hget Hs). unfold bind, lift.
  destruct (json response) as [e|d_response]; [reflexivity|].
  destruct d_response; try reflexivity.
  now destruct (Hd d).
Qed.

(** X11: the error of the API is tested by truth value, not by type.  With
    status 200 and a dictionary as body, [_query] shows the one error label
    with [str] of the [error] entry when that entry is true (a non-empty
    string, a non-zero number, [True], a non-empty list or dictionary), and
    the rows of the body otherwise. *)
Theorem query_200_dict (query : string) (response : Response) (s : world)
    (d : list (string * pyval)) :
  requests_get query = inr response ->
  status_code response = 200%Z ->
  json response = inr (PyDict d) ->
  _query query s
  = (inr tt,
     mkWorld
       (set_output (self s)
          (output_layout (self s)
           ++ (if py_truthy (error_entry d)
               then [error_label ("API request returned error: "
                                  ++ py_str (error_entry d))]
               else row_items (result_rows d))))
       (log s ++ [EvGet query; EvJson])).
Proof.
  intros Hget Hs Hjson. apply Z.eqb_eq in Hs.
  rewrite (_query_200 _ _ _ Hget Hs). unfold bind, lift.
  rewrite Hjson. cbn [py_get]. unfold error_entry.
  destruct (dict_get d "error") as [v|];
    [destruct (py_truthy v)|cbn [py_truthy]];
    first [apply _display_error_run | cbn [py_items]; apply for_each_addRow].
Qed.

(** X12: a slot never writes to the form.  After any of the three slots the
    key and the exact, min and max texts are what they were; only the
    output layout has changed. *)
Theorem slot_keeps_form (q : M unit) (s : world) :
  In q slots ->
  self (after q s) = set_output (self s) (output_layout (self (after q s))).
Proof.
  assert (Hq : forall query,
             self (after (_query query) (cleared s))
             = set_output (self s)
                 (output_layout (self (after (_query query) (cleared s))))).
  { intros query.
    destruct (_query_effect query (cleared s)) as [new [more [E _]]].
    rewrite E. reflexivity. }
  intros [<-|[<-|[<-|[]]]]; unfold after.
  - rewrite query_random_run. apply Hq.
  - rewrite query_key_run.
    destruct (negb (str_truthy (key_input_field (self s)))).
    + rewrite _display_error_run. reflexivity.
    + apply Hq.
  - rewrite query_multi_run.
    destruct (query_multi_tail (self s)) as [e|query_tail].
    + reflexivity.
    + apply Hq.
Qed.

(** What [_query] returns and does to the widget does not depend on what
    was logged before. *)
Lemma _query_log_free (query : string) (w : BoredApiWidget) (l l' : list event) :
  fst (_query query (mkWorld w l)) = fst (_query query (mkWorld w l'))
  /\ self (snd (_query query (mkWorld w l)))
     = self (snd (_query query (mkWorld w l'))).
Proof.
  destruct (requests_get query) as [e|response] eqn:Hget.
  - now rewrite !(_query_get_raises _ _ _ Hget).
  - destruct (status_code response =? 200)%Z eqn:Hs.
    + rewrite !(_query_200 _ _ _ Hget Hs). unfold bind, lift.
      destruct (json response) as [e|d_response]; [now split|].
      destruct (py_get d_response "error") as [e|error_message]; [now split|].
      destruct (py_truthy error_message); [now split|].
      destruct (py_items d_response) as [e|items]; [now split|].
      now rewrite !for_each_addRow.
    + now rewrite !(_query_not_200 _ _ _ Hget Hs).
Qed.

Lemma slot_log_free (q : M unit) (w : BoredApiWidget) (l l' : list event) :
  In q slots ->
  fst (q (mkWorld w l)) = fst (q (mkWorld w l'))
  /\ self (snd (q (mkWorld w l))) = self (snd (q (mkWorld w l'))).
Proof.
  intros [<-|[<-|[<-|[]]]].
  - rewrite !query_random_run. apply _query_log_free.
  - rewrite !query_key_run. cbn [self].
    destruct (negb (str_truthy (key_input_field w))).
    + now rewrite !_display_error_run.
    + apply _query_log_free.
  - rewrite !query_multi_run. cbn [self].
    destruct (query_multi_tail w) as [e|query_tail]; [now split|].
    apply _query_log_free.
Qed.

Lemma slot_ignores_output (q : M unit) (s : world) :
  In q slots -> q s = q (cleared s).
Proof.
  intros [<-|[<-|[<-|[]]]].
  - now rewrite !query_random_run.
  - now rewrite !query_key_run.
  - now rewrite !query_multi_run.
Qed.

(** X13: no history.  A slot run after another slot returns what it returns
    when run alone and leaves the widget as it does when run alone: nothing
    of the earlier query is kept. *)
Theorem slot_after_slot (q1 q2 : M unit) (s : world) :
  In q1 slots -> In q2 slots ->
  fst (q2 (after q1 s)) = fst (q2 s)
  /\ self (after q2 (after q1 s)) = self (after q2 s).
Proof.
  intros H1 H2.
  change (fst (q2 (after q1 s)) = fst (q2 s)
          /\ self (snd (q2 (after q1 s))) = self (snd (q2 s))).
  rewrite (slot_ignores_output q2 (after q1 s) H2).
  rewrite (slot_ignores_output q2 s H2).
  unfold cleared. rewrite (slot_keeps_form q1 s H1).
  apply (slot_log_free q2 _ _ _ H2).
Qed.

(** X14: Clear, then a query.  After [_clear] on a widget the program can
    hold, [query_key] shows [No key provided] and asks nothing of the
    server, and [query_multi] asks for the base URL followed by a bare
    question mark. *)
Theorem query_after_clear (s : world) :
  well_formed (self s) ->
  query_key (after _clear s)
  = (inr tt,
     mkWorld (set_output __init__ [error_label "No key provided"]) (log s))
  /\ query_multi (after _clear s)
     = _query (BORED_API_URL ++ "?") (mkWorld __init__ (log s)).
Proof.
  intros Hwf. unfold after. rewrite (_clear_resets_form s Hwf). cbn [snd].
  split.
  - rewrite query_key_run. reflexivity.
  - rewrite query_multi_run. reflexivity.
Qed.

(** X16: [query_random] does not read the form.  Whatever the key and the
    parameter fields hold, it makes one request, to the base URL with
    nothing appended. *)
Theorem query_random_base_url (s : world) :
  query_random s = _query BORED_API_URL (cleared s)
  /\ requests_made (log (after query_random s))
     = (requests_made (log s) ++ [BORED_API_URL])%list.
Proof.
  split; [apply query_random_run|].
  unfold after. rewrite query_random_run.
  apply (_query_requests _ (cleared s)).
Qed.

(** X17: no retry.  Each of the three slots makes at most one request,
    whatever the server answers and whether or not an exception escapes. *)
Theorem slot_requests_at_most_once (q : M unit) (s : world) :
  In q slots ->
  exists urls,
    requests_made (log (after q s)) = (requests_made (log s) ++ urls)%list
    /\ length urls <= 1.
Proof.
  assert (Hq : forall query,
             exists urls,
               requests_made (log (after (_query query) (cleared s)))
               = (requests_made (log s) ++ urls)%list
               /\ length urls <= 1).
  { intros query. exists [query]. split; [|simpl; lia].
    apply (_query_requests _ (cleared s)). }
  assert (H0 : exists urls,
             requests_made (log s) = (requests_made (log s) ++ urls)%list
             /\ length urls <= 1).
  { exists []. split; [now rewrite app_nil_r | simpl; lia]. }
  intros [<-|[<-|[<-|[]]]]; unfold after.
  - rewrite query_random_run. apply Hq.
  - rewrite query_key_run.
    destruct (negb (str_truthy (key_input_field (self s)))).
    + rewrite _display_error_run. exact H0.
    + apply Hq.
  - rewrite query_multi_run.
    destruct (query_multi_tail (self s)) as [e|query_tail].
    + exact H0.
    + apply Hq.
Qed.

End Executor.

Arguments PyNone {pyfloat}.
Arguments PyBool {pyfloat} b.
Arguments PyInt {pyfloat} n.
Arguments PyFloat {pyfloat} x.
Arguments PyStr {pyfloat} s.
Arguments PyList {pyfloat} l.
Arguments PyDict {pyfloat} d.
Arguments mkResponse {pyfloat} status_code json.

(* ================================================================== *)
(** ** The slots on sample responses

    A small instance of the abstract parts: a float stands as the text
    [str] gives for it, and [repr] of a string puts it in single quotes
    (what CPython does for a string without quotes or escapes). *)

Module Sample.

Definition float_str (x : string) : string := x.

Definition float_truthy (x : string) : bool :=
  negb (String.eqb x "0.0" || String.eqb x "-0.0").

Definition str_repr (s : string) : string := "'" ++ s ++ "'".

(** A server that answers every request with status 500 and a body that is
    not JSON. *)
Definition server_down (_ : string) : Err (Response string) :=
  inr (mkResponse 500 (inl JSONDecodeError)).

(** A server that answers with an error of the API. *)
Definition error_body : list (string * pyval string) :=
  [("error", PyStr "Not enough parameters")].

Definition server_error (_ : string) : Err (Response string) :=
  inr (mkResponse 200 (inr (PyDict error_body))).

(** A server that answers with an activity. *)
Definition activity_body : list (string * pyval string) :=
  [("activity", PyStr "Learn a new language");
   ("type", PyStr "education");
   ("participants", PyInt 1);
   ("price", PyFloat "0.1");
   ("error", PyNone)].

Definition server_ok (_ : string) : Err (Response string) :=
  inr (mkResponse 200 (inr (PyDict activity_body))).

(** The widget after [__init__] with an error label left over from an
    earlier query, and nothing logged. *)
Definition start : world :=
  mkWorld (set_output __init__ [error_label "No key provided"]) [].

Definition with_key (key : string) : world :=
  mkWorld (type_key key (self start)) [].

Definition run_query (net : string -> Err (Response string)) : string -> M unit :=
  _query string float_str float_truthy str_repr net.

Definition run_query_random (net : string -> Err (Response string)) : M unit :=
  query_random string float_str float_truthy str_repr net.

Definition run_query_key (net : string -> Err (Response string)) : M unit :=
  query_key string float_str float_truthy str_repr net.

Definition run_query_multi (net : string -> Err (Response string)) : M unit :=
  query_multi string float_str float_truthy str_repr net.

Example query_random_activity :
  run_query_random server_ok start
  = (inr tt,
     mkWorld
       (set_output __init__
          [Widget "activity:"; Widget "Learn a new language";
           Widget "type:"; Widget "education";
           Widget "participants:"; Widget "1";
           Widget "price:"; Widget "0.1";
           Widget "error:"; Widget "None"])
       [EvGet "http://bored.api.lewagon.com/api/activity/"; EvJson]).
Proof. reflexivity. Qed.

Example query_random_api_error :
  run_query_random server_error start
  = (inr tt,
     mkWorld
       (set_output __init__
          [Widget "<span style='color:red;'>ERROR: API request returned error: Not enough parameters</span>"])
       [EvGet "http://bored.api.lewagon.com/api/activity/"; EvJson]).
Proof. reflexivity. Qed.

Example query_random_status_500 :
  run_query_random server_down start
  = (inr tt,
     mkWorld
       (set_output __init__
          [Widget "<span style='color:red;'>ERROR: API request failed: 500</span>"])
       [EvGet "http://bored.api.lewagon.com/api/activity/"]).
Proof. reflexivity. Qed.

Example query_key_empty :
  run_query_key server_ok start
  = (inr tt,
     mkWorld
       (set_output __init__
          [Widget "<span style='color:red;'>ERROR: No key provided</span>"])
       []).
Proof. reflexivity. Qed.

Lemma query_key_validation_witness :
  (run_query_key server_ok start
   = (inr tt,
      mkWorld (set_output (self start) [error_label "No key provided"]) (log start)))
  /\ (run_query_key server_ok (with_key "5881028")
      = run_query server_ok (BORED_API_URL ++ "?key=" ++ "5881028")
          (cleared (with_key "5881028"))
      /\ requests_made (log (after (run_query_key server_ok) (with_key "5881028")))
         = (requests_made (log (with_key "5881028"))
            ++ [(BORED_API_URL ++ "?key=" ++ "5881028")%string])%list).
Proof.
  split.
  - apply (query_key_validation string float_str float_truthy str_repr
             server_ok start "" eq_refl).
    reflexivity.
  - apply (query_key_validation string float_str float_truthy str_repr
             server_ok (with_key "5881028") "5881028" eq_refl).
    discriminate.
Defined.

Lemma query_failed_status_witness :
  run_query server_down BORED_API_URL start
  = (inr tt,
     mkWorld
       (set_output (self start)
          (output_layout (self start)
           ++ [error_label ("API request failed: " ++ int_str 500)]))
       (log start ++ [EvGet BORED_API_URL]))
  /\ json_calls (log (after (run_query server_down BORED_API_URL) start))
     = json_calls (log start).
Proof.
  apply (query_failed_status string float_str float_truthy str_repr
           server_down BORED_API_URL (mkResponse 500 (inl JSONDecodeError)) start).
  - reflexivity.
  - discriminate.
Defined.

Lemma query_api_error_witness :
  run_query server_error BORED_API_URL start
  = (inr tt,
     mkWorld
       (set_output (self start)
          (output_layout (self start)
           ++ [error_label ("API request returned error: " ++ "Not enough parameters")]))
       (log start ++ [EvGet BORED_API_URL; EvJson])).
Proof.
  apply (query_api_error string float_str float_truthy str_repr
           server_error BORED_API_URL
           (mkResponse 200 (inr (PyDict error_body))) start
           error_body "Not enough parameters").
  - reflexivity.
  - reflexivity.
  - reflexivity.
  - reflexivity.
  - discriminate.
Defined.

Lemma query_success_witness :
  run_query server_ok BORED_API_URL start
  = (inr tt,
     mkWorld
       (set_output (self start)
          (output_layout (self start)
           ++ row_items (result_rows string float_str str_repr activity_body)))
       (log start ++ [EvGet BORED_API_URL; EvJson]))
  /\ map fst (result_rows string float_str str_repr activity_body)
     = dict_keys activity_body
  /\ map snd (result_rows string float_str str_repr activity_body)
     = map (fun kv => py_str string float_str str_repr (snd kv)) activity_body
  /\ py_str string float_str str_repr PyNone = "None".
Proof.
  apply (query_success string float_str float_truthy str_repr
           server_ok BORED_API_URL
           (mkResponse 200 (inr (PyDict activity_body))) start activity_body).
  - reflexivity.
  - reflexivity.
  - reflexivity.
  - intros v Hv. cbn in Hv. injection Hv as <-. reflexivity.
Defined.

Lemma query_multi_empty_form_witness :
  query_multi_url (self start) = inr (BORED_API_URL ++ "?")
  /\ run_query_multi server_ok start
     = run_query server_ok (BORED_API_URL ++ "?") (cleared start)
  /\ requests_made (log (after (run_query_multi server_ok) start))
     = (requests_made (log start) ++ [(BORED_API_URL ++ "?")%string])%list.
Proof.
  apply (query_multi_empty_form string float_str float_truthy str_repr
           server_ok start).
  - repeat split.
  - reflexivity.
Defined.

End Sample.

(* ================================================================== *)
(** ** More sample responses *)

Module SampleMore.

Import Sample.

(** A server that cannot be reached: [requests.get] raises. *)
Definition server_unreachable (_ : string) : Err (Response string) :=
  inl RequestException.

(** A server that answers 200 with a page that is not JSON. *)
Definition server_page (_ : string) : Err (Response string) :=
  inr (mkResponse 200 (inl JSONDecodeError)).

(** A server that answers 200 with a JSON list. *)
Definition server_list (_ : string) : Err (Response string) :=
  inr (mkResponse 200 (inr (PyList [PyInt 1; PyInt 2]))).

(** A server whose error entry is a number. *)
Definition numeric_error_body : list (string * pyval string) :=
  [("activity", PyStr "Learn a new language"); ("error", PyInt 404)].

Definition server_numeric_error (_ : string) : Err (Response string) :=
  inr (mkResponse 200 (inr (PyDict numeric_error_body))).

Definition run_slots (net : string -> Err (Response string)) : list (M unit) :=
  slots string float_str float_truthy str_repr net.

Example query_random_numeric_error :
  run_query_random server_numeric_error start
  = (inr tt,
     mkWorld
       (set_output __init__
          [Widget "<span style='color:red;'>ERROR: API request returned error: 404</span>"])
       [EvGet "http://bored.api.lewagon.com/api/activity/"; EvJson]).
Proof. reflexivity. Qed.

Example query_random_list_body :
  run_query_random server_list start
  = (inl (AttributeError "get"),
     mkWorld (set_output __init__ [])
       [EvGet "http://bored.api.lewagon.com/api/activity/"; EvJson]).
Proof. reflexivity. Qed.

Lemma slot_output_is_cleaned_witness :
  flat (output_layout (self (after (run_query_random server_ok) start))) = true
  /\ map Widget
       (snd (_cleanup_loop
               (output_layout (self (after (run_query_random server_ok) start)))))
     = output_layout (self (after (run_query_random server_ok) start)).
Proof.
  apply (slot_output_is_cleaned string float_str float_truthy str_repr
           server_ok (run_query_random server_ok) start).
  left. reflexivity.
Defined.

Lemma transport_failure_escapes_witness :
  run_query_random server_unreachable (with_key "5881028")
  = (inl RequestException,
     mkWorld (set_output (self (with_key "5881028")) [])
       (log (with_key "5881028") ++ [EvGet BORED_API_URL]))
  /\ (key_input_field (self (with_key "5881028")) <> "" ->
      run_query_key server_unreachable (with_key "5881028")
      = (inl RequestException,
         mkWorld (set_output (self (with_key "5881028")) [])
           (log (with_key "5881028")
            ++ [EvGet (BORED_API_URL ++ "?key="
                       ++ key_input_field (self (with_key "5881028")))])))
  /\ (well_formed (self (with_key "5881028")) ->
      exists query_tail,
        query_multi_tail (self (with_key "5881028")) = inr query_tail
        /\ run_query_multi server_unreachable (with_key "5881028")
           = (inl RequestException,
              mkWorld (set_output (self (with_key "5881028")) [])
                (log (with_key "5881028")
                 ++ [EvGet (BORED_API_URL ++ "?" ++ query_tail)]))).
Proof.
  apply (transport_failure_escapes string float_str float_truthy str_repr
           server_unreachable RequestException (with_key "5881028")).
  reflexivity.
Defined.

Lemma unusable_body_escapes_witness :
  run_query server_page BORED_API_URL start
  = (inl JSONDecodeError,
     mkWorld (self start) (log start ++ [EvGet BORED_API_URL; EvJson]))
  /\ run_query server_list BORED_API_URL start
     = (inl (AttributeError "get"),
        mkWorld (self start) (log start ++ [EvGet BORED_API_URL; EvJson])).
Proof.
  split.
  - apply (unusable_body_escapes string float_str float_truthy str_repr
             server_page BORED_API_URL (mkResponse 200 (inl JSONDecodeError)) start).
    + reflexivity.
    + reflexivity.
    + discriminate.
  - apply (unusable_body_escapes string float_str float_truthy str_repr
             server_list BORED_API_URL
             (mkResponse 200 (inr (PyList [PyInt 1; PyInt 2]))) start).
    + reflexivity.
    + reflexivity.
    + discriminate.
Defined.

Lemma query_200_dict_witness :
  run_query server_numeric_error BORED_API_URL start
  = (inr tt,
     mkWorld
       (set_output (self start)
          (output_layout (self start)
           ++ (if py_truthy string float_truthy (error_entry string numeric_error_body)
               then [error_label
                       ("API request returned error: "
                        ++ py_str string float_str str_repr
                             (error_entry string numeric_error_body))]
               else row_items
                      (result_rows string float_str str_repr numeric_error_body))))
       (log start ++ [EvGet BORED_API_URL; EvJson])).
Proof.
  apply (query_200_dict string float_str float_truthy str_repr
           server_numeric_error BORED_API_URL
           (mkResponse 200 (inr (PyDict numeric_error_body))) start
           numeric_error_body).
  - reflexivity.
  - reflexivity.
  - reflexivity.
Defined.

Lemma slot_keeps_form_witness :
  self (after (run_query_key server_ok) (with_key "5881028"))
  = set_output (self (with_key "5881028"))
      (output_layout (self (after (run_query_key server_ok) (with_key "5881028")))).
Proof.
  apply (slot_keeps_form string float_str float_truthy str_repr
           server_ok (run_query_key server_ok) (with_key "5881028")).
  right. left. reflexivity.
Defined.

Lemma slot_after_slot_witness :
  fst (run_query_key server_ok (after (run_query_random server_ok) (with_key "5881028")))
  = fst (run_query_key server_ok (with_key "5881028"))
  /\ self (after (run_query_key server_ok)
             (after (run_query_random server_ok) (with_key "5881028")))
     = self (after (run_query_key server_ok) (with_key "5881028")).
Proof.
  apply (slot_after_slot string float_str float_truthy str_repr
           server_ok (run_query_random server_ok) (run_query_key server_ok)
           (with_key "5881028")).
  - left. reflexivity.
  - right. left. reflexivity.
Defined.

Lemma query_after_clear_witness :
  run_query_key server_ok (after _clear (mkWorld form_mixed []))
  = (inr tt,
     mkWorld (set_output __init__ [error_label "No key provided"])
       (log (mkWorld form_mixed [])))
  /\ run_query_multi server_ok (after _clear (mkWorld form_mixed []))
     = run_query server_ok (BORED_API_URL ++ "?")
         (mkWorld __init__ (log (mkWorld form_mixed []))).
Proof.
  apply (query_after_clear string float_str float_truthy str_repr
           server_ok (mkWorld form_mixed [])).
  repeat split.
Defined.

Lemma slot_requests_at_most_once_witness :
  exists urls,
    requests_made (log (after (run_query_multi server_ok) start))
    = (requests_made (log start) ++ urls)%list
    /\ length urls <= 1.
Proof.
  apply (slot_requests_at_most_once string float_str float_truthy str_repr
           server_ok (run_query_multi server_ok) start).
  right. right. left. reflexivity.
Defined.

End SampleMore.
